(** * Dataset fetchers of [torch/utils/data/_utils/fetch.py]

    A shallow embedding of the three fetchers used by the data loader
    ([_IterableDatasetFetcher], [_MapDatasetFetcher] and
    [_AsyncMapDatasetFetcher]) and the properties of their [fetch] methods. *)

From Stdlib Require Import String.
From Stdlib Require Import List ZArith Bool Lia Permutation Sorted Arith.
Import ListNotations.

Set Implicit Arguments.

(** ** Python values, exceptions and indices *)

(** The objects that travel through the fetchers.  Samples are opaque to the
    fetchers: no fetcher inspects a [value] coming from a dataset. *)
#[warnings="-register-all"]
Inductive value : Type :=
| VInt (i : Z)
| VStr (s : string)
| VList (l : list value)
| VTuple (l : list value).

(** The exceptions.  [StopIteration], [TypeError], [IndexError] and
    [Exception what] (any other exception derived from [Exception]) are
    what [except Exception] catches; [BaseException what] is an exception
    outside [Exception], such as [GeneratorExit] or a class derived from
    [BaseException] directly.  Left out are [KeyboardInterrupt] and
    [SystemExit], which stop an event loop, the classes derived from
    [StopIteration], and [concurrent.futures.CancelledError], which an
    asyncio future takes for a cancellation. *)
Inductive exn : Type :=
| StopIteration
| TypeError
| IndexError
| Exception (what : string)
| BaseException (what : string).

Inductive outcome (A : Type) : Type :=
| Return (a : A)
| Raise (e : exn).

Arguments Return {A} a.
Arguments Raise {A} e.

(** [possibly_batched_index]: one key, or a list of keys. *)
Inductive index : Type :=
| Single (i : Z)
| Batch (l : list Z).

(** Calls made to the collaborators (dataset and collate function), with what
    they answered, in the order they are made. *)
Inductive event : Type :=
| Next (r : outcome value)
| GetItem (k : index) (r : outcome value)
| GetItems (k : index) (r : outcome value)
| Collate (data : value) (r : outcome value).

(** [v[1]] *)
Definition subscript1 (v : value) : outcome value :=
  match v with
  | VList l | VTuple l =>
      match nth_error l 1 with
      | Some x => Return x
      | None => Raise IndexError
      end
  | VStr s =>
      match String.get 1 s with
      | Some c => Return (VStr (String c EmptyString))
      | None => Raise IndexError
      end
  | VInt _ => Raise TypeError
  end.

(** ** Statements with state, exceptions and a call log *)

Section Statements.
Variable St : Type.

Definition M (A : Type) : Type := St -> outcome A * St * list event.

Definition ret {A} (a : A) : M A := fun s => (Return a, s, []).

Definition raise {A} (e : exn) : M A := fun s => (Raise e, s, []).

Definition bind {A B} (m : M A) (k : A -> M B) : M B :=
  fun s =>
    match m s with
    | (Return a, s1, t1) =>
        match k a s1 with
        | (r, s2, t2) => (r, s2, t1 ++ t2)
        end
    | (Raise e, s1, t1) => (Raise e, s1, t1)
    end.

Definition get : M St := fun s => (Return s, s, []).

(** A call to a collaborator: its answer is logged. *)
Definition perform (ev : outcome value -> event) (r : outcome value) : M value :=
  fun s => (r, s, [ev r]).

(** [try: body  except StopIteration: handler] *)
Definition try_except_StopIteration {A} (body handler : M A) : M A :=
  fun s =>
    match body s with
    | (Raise StopIteration, s1, t1) =>
        match handler s1 with
        | (r, s2, t2) => (r, s2, t1 ++ t2)
        end
    | other => other
    end.
End Statements.

Arguments ret {St A} a.
Arguments raise {St A} e.
Arguments bind {St A B} m k.
Arguments get {St}.
Arguments perform {St} ev r.
Arguments try_except_StopIteration {St A} body handler.

Declare Scope stmt_scope.
Delimit Scope stmt_scope with stmt.
Notation "x <- m ;; k" := (bind m (fun x => k))
  (at level 100, m at next level, right associativity) : stmt_scope.
Notation "m ;;; k" := (bind m (fun _ => k))
  (at level 100, right associativity) : stmt_scope.
Local Open Scope stmt_scope.

(** ** [_BaseDatasetFetcher] *)

(** The fields every fetcher shares.  The dataset itself is kept by each
    subclass, in the form that subclass uses. *)
Record BaseDatasetFetcher : Type := {
  auto_collation : bool;
  collate_fn : option (value -> outcome value);
  drop_last : bool
}.

(** [self.collate_fn(data)]: calling [None] is a [TypeError]. *)
Definition call_collate_fn {St} (self : BaseDatasetFetcher) (data : value) : M St value :=
  match collate_fn self with
  | Some c => perform (Collate data) (c data)
  | None => raise TypeError
  end.

(** ** [_IterableDatasetFetcher] *)

Module IterableDatasetFetcher.

Section Fetcher.
(** The iterator protocol of the dataset: [next] answers an item, raises
    [StopIteration] at the end of the data or raises another exception,
    and moves the cursor. *)
Variable Cursor : Type.
Variable next_ : Cursor -> outcome value * Cursor.

Record t : Type := {
  base : BaseDatasetFetcher;
  dataset_iter : Cursor;
  ended : bool
}.

(** [__init__]: [self.dataset_iter = iter(dataset)], [self.ended = False]. *)
Definition init (b : BaseDatasetFetcher) (it : Cursor) : t :=
  {| base := b; dataset_iter := it; ended := false |}.

(** [next(self.dataset_iter)] *)
Definition next_dataset_iter : M t value :=
  fun self =>
    let (r, it') := next_ (dataset_iter self) in
    (r, {| base := base self; dataset_iter := it'; ended := ended self |}, [Next r]).

(** [self.ended = True] *)
Definition set_ended : M t unit :=
  fun self =>
    (Return tt, {| base := base self; dataset_iter := dataset_iter self; ended := true |}, []).

(** The loop [for _ in possibly_batched_index], started with the items
    gathered so far; [None] from the body is the [break]. *)
Fixpoint for_loop (idx : list Z) (data : list value) : M t (list value) :=
  match idx with
  | [] => ret data
  | _ :: rest =>
      step <- try_except_StopIteration
                (x <- next_dataset_iter ;; ret (Some (data ++ [x])))
                (set_ended ;;; ret None) ;;
      match step with
      | Some data' => for_loop rest data'
      | None => ret data
      end
  end.

Definition fetch (possibly_batched_index : index) : M t value :=
  self <- get ;;
  if ended self then raise StopIteration
  else
    data <- (if auto_collation (base self) then
               match possibly_batched_index with
               | Batch idx =>
                   data <- for_loop idx [] ;;
                   if (length data =? 0)%nat
                      || (drop_last (base self) && (length data <? length idx)%nat)
                   then raise StopIteration
                   else ret (VList data)
               | Single _ => raise TypeError
               end
             else next_dataset_iter) ;;
    call_collate_fn (base self) data.

(** A caller that calls [fetch] once for each index of a list, whatever
    the calls answer: the outcomes, the fetcher left behind and the log. *)
Fixpoint fetches (indices : list index) (self : t)
  : list (outcome value) * t * list event :=
  match indices with
  | [] => ([], self, [])
  | i :: rest =>
      match fetch i self with
      | (r, self1, t1) =>
          match fetches rest self1 with
          | (rs, self2, t2) => (r :: rs, self2, t1 ++ t2)
          end
      end
  end.
End Fetcher.

End IterableDatasetFetcher.

(** The iterator of a Python list: the items in turn, then [StopIteration]
    on every later call. *)
Definition list_iterator_next (it : list value) : outcome value * list value :=
  match it with
  | [] => (Raise StopIteration, [])
  | x :: rest => (Return x, rest)
  end.

(** ** Map-style datasets *)

(** What [hasattr(dataset, "__getitems__") and dataset.__getitems__] sees. *)
Inductive getitems_attr : Type :=
| Absent
| Falsy
| Bulk (f : index -> outcome value).

(** A map-style dataset: [__getitem__] and the attribute [__getitems__].
    The dataset answers a key in one way: what a retrieval returns or
    raises is a function of the key. *)
Record MapDataset : Type := {
  getitem : index -> outcome value;
  getitems : getitems_attr
}.

(** ** [_MapDatasetFetcher] *)

Module MapDatasetFetcher.

Record t : Type := {
  base : BaseDatasetFetcher;
  dataset : MapDataset
}.

(** [[self.dataset[idx] for idx in possibly_batched_index]] *)
Fixpoint comprehension (ds : MapDataset) (idx : list Z) : M t (list value) :=
  match idx with
  | [] => ret []
  | i :: rest =>
      x <- perform (GetItem (Single i)) (getitem ds (Single i)) ;;
      xs <- comprehension ds rest ;;
      ret (x :: xs)
  end.

Definition fetch (possibly_batched_index : index) : M t value :=
  self <- get ;;
  data <- (if auto_collation (base self) then
             match getitems (dataset self) with
             | Bulk f => perform (GetItems possibly_batched_index) (f possibly_batched_index)
             | Absent | Falsy =>
                 match possibly_batched_index with
                 | Batch idx =>
                     xs <- comprehension (dataset self) idx ;;
                     ret (VList xs)
                 | Single _ => raise TypeError
                 end
             end
           else perform (GetItem possibly_batched_index)
                        (getitem (dataset self) possibly_batched_index)) ;;
  call_collate_fn (base self) data.

End MapDatasetFetcher.

(** ** [_AsyncMapDatasetFetcher] *)

Module AsyncMapDatasetFetcher.

Record t : Type := {
  base : BaseDatasetFetcher;
  dataset : MapDataset;
  thread_pool_size : nat
}.

(** [__init__]: [ThreadPoolExecutor(num_fetch_workers)] refuses a pool
    without threads. *)
Definition init (b : BaseDatasetFetcher) (ds : MapDataset) (num_fetch_workers : nat)
  : outcome t :=
  match num_fetch_workers with
  | O => Raise (Exception "ValueError: max_workers must be greater than 0")
  | _ => Return {| base := b; dataset := ds; thread_pool_size := num_fetch_workers |}
  end.

(** The state of one call of [initiate_fetch_tasks]: the two queues, the
    workers suspended on [run_in_executor] (worker id and the index being
    retrieved) and what the workers printed. *)
Record pool : Type := {
  task_queue : list Z;
  result_queue : list (Z * value);
  running : list (nat * Z);
  stdout : list (nat * exn)
}.

(** A worker at the head of its [while] loop: with the task queue empty it
    returns; otherwise it takes the first index ([get] does not suspend on a
    queue that is not empty), hands the retrieval to the executor and
    suspends. *)
Definition worker_loop (worker_id : nat) (st : pool) : pool :=
  match task_queue st with
  | [] => st
  | index :: rest =>
      {| task_queue := rest;
         result_queue := result_queue st;
         running := running st ++ [(worker_id, index)];
         stdout := stdout st |}
  end.

(** [tasks = [create_task(self.worker(i, ...)) for i in range(n)]]: the event
    loop starts the workers in the order of their creation. *)
Fixpoint create_tasks (worker_id n : nat) (st : pool) : pool :=
  match n with
  | O => st
  | S n' => create_tasks (S worker_id) n' (worker_loop worker_id st)
  end.

Fixpoint remove_nth {A} (k : nat) (l : list A) : list A :=
  match l, k with
  | [], _ => []
  | _ :: l', O => l'
  | x :: l', S k' => x :: remove_nth k' l'
  end.

(** What the future of [run_in_executor] does with the outcome of the
    retrieval.  It takes a result or an exception and the worker is
    resumed with it; but [Future.set_exception] refuses a [StopIteration]
    (it raises a [TypeError] in the callback of the event loop, and the
    loop logs it), so that the future is never done.  (Later releases of
    asyncio set a [RuntimeError] on the future instead.) *)
Definition set_on_future (r : outcome value) : bool :=
  match r with
  | Raise StopIteration => false
  | _ => true
  end.

(** The retrieval of the [k]-th suspended worker finishes.  With a result
    the worker puts [(index, result)] on the result queue and goes round
    its loop.  With an exception that [except Exception] catches it prints
    the exception and goes round its loop.  An exception outside
    [Exception] passes the handler and ends the worker; [gather], called
    with [return_exceptions=True], keeps it to itself.  With a
    [StopIteration] the future is never done: the worker is not resumed
    and stays suspended, and the state is as it was. *)
Definition worker_resume (ds : MapDataset) (k : nat) (st : pool) : pool :=
  match nth_error (running st) k with
  | None => st
  | Some (worker_id, index) =>
      match getitem ds (Single index) with
      | Return result =>
          worker_loop worker_id
            {| task_queue := task_queue st;
               result_queue := result_queue st ++ [(index, result)];
               running := remove_nth k (running st);
               stdout := stdout st |}
      | Raise StopIteration => st
      | Raise (BaseException _) =>
          {| task_queue := task_queue st;
             result_queue := result_queue st;
             running := remove_nth k (running st);
             stdout := stdout st |}
      | Raise e =>
          worker_loop worker_id
            {| task_queue := task_queue st;
               result_queue := result_queue st;
               running := remove_nth k (running st);
               stdout := stdout st ++ [(worker_id, e)] |}
      end
  end.

(** Any order of completion of the retrievals. *)
Inductive gathering (ds : MapDataset) : pool -> pool -> Prop :=
| gathering_refl st : gathering ds st st
| gathering_step st k st' :
    (k < length (running st))%nat ->
    gathering ds (worker_resume ds k st) st' ->
    gathering ds st st'.

(** The suspended workers that the end of their retrieval resumes, by
    their place among the suspended workers. *)
Definition resumable (ds : MapDataset) (st : pool) (k : nat) : bool :=
  match nth_error (running st) k with
  | Some (_, index) => set_on_future (getitem ds (Single index))
  | None => false
  end.

Definition ready (ds : MapDataset) (st : pool) : list nat :=
  filter (resumable ds st) (seq 0 (length (running st))).

(** [await asyncio.gather] on the tasks, under a schedule: its head says
    which of the workers that can be resumed is resumed next (modulo their
    number).  No more than [fuel] retrievals are completed;
    [initiate_fetch_tasks] gives one unit of fuel for each index of the
    batch.  The workers left suspended at the end are those that are never
    resumed. *)
Fixpoint gather (ds : MapDataset) (fuel : nat) (schedule : list nat) (st : pool) : pool :=
  match fuel, ready ds st with
  | O, _ | _, [] => st
  | S fuel', k :: ks =>
      gather ds fuel' (tl schedule)
        (worker_resume ds (nth (Nat.modulo (hd O schedule) (length (k :: ks))) (k :: ks) k) st)
  end.

(** [result_list.sort(key=lambda v: v[0])]: a stable sort by index.  The
    entries are inserted from the last to the first, each before the first
    entry whose index is not smaller, so entries of equal index keep their
    order. *)
Fixpoint insert (x : Z * value) (l : list (Z * value)) : list (Z * value) :=
  match l with
  | [] => [x]
  | y :: l' => if (fst x <=? fst y)%Z then x :: l else y :: insert x l'
  end.

Definition sort_by_index (l : list (Z * value)) : list (Z * value) :=
  fold_right insert [] l.

(** The Python list of [(index, result)] tuples. *)
Definition tuples (l : list (Z * value)) : value :=
  VList (map (fun v => VTuple [VInt (fst v); snd v]) l).

(** The pool when [initiate_fetch_tasks] has loaded the queue, created the
    tasks and awaited them under the schedule. *)
Definition gathered (self : t) (schedule : list nat) (batch_indices : list Z) : pool :=
  gather (dataset self) (length batch_indices) schedule
    (create_tasks O (thread_pool_size self)
       {| task_queue := batch_indices; result_queue := []; running := []; stdout := [] |}).

(** A [StopIteration] that the body of a coroutine raises leaves the
    coroutine as a [RuntimeError]. *)
Definition in_coroutine {A} (body : M t A) : M t A :=
  fun self =>
    match body self with
    | (Raise StopIteration, self1, t1) =>
        (Raise (Exception "RuntimeError: coroutine raised StopIteration"), self1, t1)
    | other => other
    end.

(** The end of [initiate_fetch_tasks]: the sorted list goes to the collate
    function and [[1]] of what it answers is returned; without a collate
    function the list itself is returned. *)
Definition collate_result_list (result_list : list (Z * value)) : M t value :=
  in_coroutine
    (self <- get ;;
     match collate_fn (base self) with
     | Some c =>
         collated <- perform (Collate (tuples result_list)) (c (tuples result_list)) ;;
         fun s => (subscript1 collated, s, [])
     | None => ret (tuples result_list)
     end).

(** [initiate_fetch_tasks] comes to its end when [gather] does, that is
    when every worker has ended; with a worker that stays suspended it
    does not, and the call does not return: [None]. *)
Definition initiate_fetch_tasks (schedule : list nat) (batch_indices : list Z) (self : t)
  : option (outcome value * t * list event) :=
  match running (gathered self schedule batch_indices) with
  | [] =>
      let result_list := result_queue (gathered self schedule batch_indices) in
      let result_list := sort_by_index result_list in
      Some (collate_result_list result_list self)
  | _ :: _ => None
  end.

(** [self.loop.run_until_complete(self.initiate_fetch_tasks(batch_indices))]:
    the outcome of the coroutine, when it comes to its end. *)
Definition fetch (schedule : list nat) (batch_indices : list Z) (self : t)
  : option (outcome value * t * list event) :=
  initiate_fetch_tasks schedule batch_indices self.

(** The entries the workers put on the result queue for a list of indices,
    and the exceptions that their retrievals raise. *)
Definition successes (ds : MapDataset) (l : list Z) : list (Z * value) :=
  flat_map (fun i => match getitem ds (Single i) with
                     | Return v => [(i, v)]
                     | Raise _ => []
                     end) l.

Definition failures (ds : MapDataset) (l : list Z) : list exn :=
  flat_map (fun i => match getitem ds (Single i) with
                     | Return _ => []
                     | Raise e => [e]
                     end) l.

(** The outcomes of a retrieval after which the worker goes round its loop:
    a result, or an exception that the future takes and [except Exception]
    catches. *)
Definition survived (r : outcome value) : bool :=
  match r with
  | Return _ => true
  | Raise StopIteration => false
  | Raise (BaseException _) => false
  | Raise _ => true
  end.

End AsyncMapDatasetFetcher.


(** * Properties *)

(** ** Statements *)

Lemma bind_get St A (k : St -> M St A) s : bind get k s = k s s.
Proof.
  unfold bind, get. destruct (k s s) as [[r s2] t2]. reflexivity.
Qed.

(** A statement followed by the call of the collate function: an exception
    of the statement is the outcome; otherwise the log is extended with
    calls of the collate function alone.  The state is the one the statement
    leaves. *)
Lemma bind_call_collate_fn St (m : M St value) b s r s' log :
  bind m (call_collate_fn b) s = (r, s', log) ->
  exists r1 t1,
    m s = (r1, s', t1) /\
    ((exists e, r1 = Raise e /\ r = Raise e /\ log = t1) \/
     (exists data tc,
        r1 = Return data /\ log = t1 ++ tc /\
        (call_collate_fn b data s' = (r, s', tc)) /\
        forall ev, In ev tc -> exists d a, ev = Collate d a)).
Proof.
  unfold bind. destruct (m s) as [[r1 s1] t1]. destruct r1 as [data|e].
  - destruct (call_collate_fn b data s1) as [[r2 s2] t2] eqn:Ec.
    intros H. inversion H; subst.
    assert (Hs : s1 = s' /\ forall ev, In ev t2 -> exists d a, ev = Collate d a).
    { unfold call_collate_fn, perform, raise in Ec.
      destruct (collate_fn b); inversion Ec; subst; (split; [reflexivity|]).
      - intros ev [<-|[]]. eauto.
      - intros ev []. }
    destruct Hs as [-> Hev].
    exists (Return data), t1. split; [reflexivity|]. right.
    exists data, t2. auto.
  - intros H. inversion H; subst. exists (Raise e), log. split; [reflexivity|].
    left. exists e. auto.
Qed.

(** ** The sequential fetcher *)

Module IterableProperties.
Import IterableDatasetFetcher.

Section Properties.
Variable Cursor : Type.
Variable next_ : Cursor -> outcome value * Cursor.

Local Abbreviation fetch := (fetch next_).
Local Abbreviation for_loop := (for_loop next_).
Local Abbreviation fetches := (fetches next_).

(** One round of the loop, by what the cursor answers. *)
Lemma for_loop_cons p idx data self :
  for_loop (p :: idx) data self =
  match next_ (dataset_iter self) with
  | (Return x, it') =>
      match for_loop idx (data ++ [x])
              {| base := base self; dataset_iter := it'; ended := ended self |} with
      | (r, s, t) => (r, s, Next (Return x) :: t)
      end
  | (Raise StopIteration, it') =>
      (Return data, {| base := base self; dataset_iter := it'; ended := true |},
       [Next (Raise StopIteration)])
  | (Raise e, it') =>
      (Raise e, {| base := base self; dataset_iter := it'; ended := ended self |},
       [Next (Raise e)])
  end.
Proof.
  simpl. unfold bind, try_except_StopIteration, next_dataset_iter, set_ended, ret.
  destruct (next_ (dataset_iter self)) as [[x|e] it']; simpl.
  - destruct (IterableDatasetFetcher.for_loop next_ idx (data ++ [x]) _) as [[r s] t].
    reflexivity.
  - destruct e; reflexivity.
Qed.

Lemma for_loop_length idx1 :
  forall idx2, length idx1 = length idx2 ->
  forall data self, for_loop idx1 data self = for_loop idx2 data self.
Proof.
  induction idx1 as [|p idx1 IH]; intros [|q idx2] Hlen data self;
    try discriminate; [reflexivity|].
  rewrite !for_loop_cons.
  destruct (next_ (dataset_iter self)) as [[x|e] it']; [|reflexivity].
  rewrite (IH idx2); [reflexivity|]. simpl in Hlen. lia.
Qed.

(** The loop keeps the configuration, never lets [StopIteration] out, and
    gathers fewer items than asked only when it has set [ended]. *)
Lemma for_loop_spec idx :
  forall data self r self' log,
    for_loop idx data self = (r, self', log) ->
    base self' = base self /\
    match r with
    | Return data' =>
        (length data' <= length data + length idx)%nat /\
        (length data <= length data')%nat /\
        ((length data' < length data + length idx)%nat -> ended self' = true)
    | Raise e => e <> StopIteration
    end.
Proof.
  induction idx as [|p idx IH]; intros data self r self' log H.
  - inversion H; subst. split; [reflexivity|]. simpl. repeat split; lia.
  - rewrite for_loop_cons in H.
    destruct (next_ (dataset_iter self)) as [[x|e] it'].
    + destruct (for_loop idx (data ++ [x]) _) as [[r1 s1] t1] eqn:E.
      inversion H; subst. apply IH in E. destruct E as [Hb Hr].
      split; [exact Hb|].
      destruct r; [|exact Hr].
      rewrite length_app in Hr. simpl in *. repeat split; try lia.
      intros Hlt. apply Hr. lia.
    + destruct e; inversion H; subst; simpl;
        (split; [reflexivity|]); try discriminate.
      repeat split; try lia.
Qed.

(** An exception of the cursor other than [StopIteration], met in the
    loop, is what the loop raises. *)
Lemma for_loop_raise idx :
  forall data self r self' log x,
    for_loop idx data self = (r, self', log) ->
    In (Next (Raise x)) log -> x <> StopIteration -> r = Raise x.
Proof.
  induction idx as [|p idx IH]; intros data self r self' log x H Hin Hx.
  - inversion H; subst. destruct Hin.
  - rewrite for_loop_cons in H.
    destruct (next_ (dataset_iter self)) as [[v|e] it'].
    + destruct (for_loop idx (data ++ [v]) _) as [[r1 s1] t1] eqn:E.
      inversion H; subst. destruct Hin as [Hin|Hin]; [discriminate|].
      eapply IH; eauto.
    + destruct e; inversion H; subst;
        (destruct Hin as [Hin|[]]; inversion Hin; subst; congruence).
Qed.

(** What the collate call logs. *)
Lemma call_collate_fn_log b data (self : t Cursor) r self' log e :
  call_collate_fn b data self = (r, self', log) ->
  ~ In (Next e) log.
Proof.
  unfold call_collate_fn, perform, raise.
  destruct (collate_fn b); intros H; inversion H; subst; simpl; intuition discriminate.
Qed.

(** An ended fetcher answers [StopIteration] and touches nothing. *)
Lemma fetch_ended idx self :
  ended self = true -> fetch idx self = (Raise StopIteration, self, []).
Proof.
  intros H. unfold IterableDatasetFetcher.fetch, bind, get. rewrite H. reflexivity.
Qed.

Lemma fetches_ended indices :
  forall self, ended self = true ->
  fetches indices self = (map (fun _ => Raise StopIteration) indices, self, []).
Proof.
  induction indices as [|i rest IH]; intros self H; simpl; [reflexivity|].
  rewrite (fetch_ended i self H), (IH self H). reflexivity.
Qed.
(** An exception of the cursor met during [fetch] is the outcome of
    [fetch], except for the [StopIteration] that ends the loop of the batched
    mode. *)
Lemma cursor_error_is_outcome idx self r self' log x :
  fetch idx self = (r, self', log) ->
  In (Next (Raise x)) log ->
  x <> StopIteration \/ auto_collation (base self) = false ->
  r = Raise x.
Proof.
  unfold IterableDatasetFetcher.fetch, bind, get.
  destruct (ended self); [intros H; inversion H; subst; intros []|].
  destruct (auto_collation (base self)) eqn:Hauto.
  - intros H Hin [Hx|]; [|discriminate].
    destruct idx as [i|idx]; [inversion H; subst; destruct Hin|].
    destruct (for_loop idx [] self) as [[r1 s1] t1] eqn:EL.
    destruct r1 as [data|e].
    + destruct ((length data =? 0)%nat
                || (drop_last (base self) && (length data <? length idx)%nat)).
      * inversion H; subst. rewrite app_nil_r in Hin.
        eapply for_loop_raise in EL; eauto. discriminate.
      * unfold ret in H.
        destruct (call_collate_fn (base self) (VList data) s1) as [[r2 s2] t2] eqn:EC.
        inversion H; subst. rewrite app_nil_r in Hin.
        apply in_app_or in Hin. destruct Hin as [Hin|Hin].
        -- eapply for_loop_raise in EL; eauto. discriminate.
        -- exfalso. eapply call_collate_fn_log; eauto.
    + inversion H; subst. eapply for_loop_raise in EL; eauto.
      inversion EL; reflexivity.
  - intros H Hin _. unfold next_dataset_iter in H.
    destruct (next_ (dataset_iter self)) as [[v|e] it'].
    + destruct (call_collate_fn (base self) v _) as [[r2 s2] t2] eqn:EC.
      inversion H; subst. destruct Hin as [Hin|Hin]; [discriminate|].
      exfalso. eapply call_collate_fn_log; eauto.
    + inversion H; subst. destruct Hin as [Hin|[]]. congruence.
Qed.

(** C10: the batched sequential fetcher reads the length of the position
    batch and nothing else: on two batches of equal length, from the same
    fetcher, [fetch] calls the cursor the same way, answers the same outcome
    and leaves the same fetcher.  (It holds of every configuration.) *)
Theorem fetch_reads_only_the_length idx1 idx2 self :
  length idx1 = length idx2 ->
  fetch (Batch idx1) self = fetch (Batch idx2) self.
Proof.
  intros H. unfold IterableDatasetFetcher.fetch, bind, get.
  destruct (ended self); [reflexivity|].
  destruct (auto_collation (base self)); [|reflexivity].
  rewrite (for_loop_length idx1 idx2 H), H. reflexivity.
Qed.

(** C4, amended: with batching enabled, once a [fetch] on a position batch
    that is not empty has signalled exhaustion (the collate function never
    raising that signal itself), the fetcher is ended and every later
    [fetch], whatever its index, signals exhaustion at once: the fetcher is
    left as it is and no call reaches the cursor. *)
Theorem exhausted_batched_fetch_is_final idx self self' log later :
  auto_collation (base self) = true ->
  idx <> [] ->
  (forall c data, collate_fn (base self) = Some c -> c data <> Raise StopIteration) ->
  fetch (Batch idx) self = (Raise StopIteration, self', log) ->
  ended self' = true /\
  fetches later self' = (map (fun _ => Raise StopIteration) later, self', []).
Proof.
  intros Hauto Hidx Hcollate H.
  assert (Hended : ended self' = true).
  { unfold IterableDatasetFetcher.fetch, bind, get in H.
    destruct (ended self) eqn:E; [inversion H; subst; exact E|].
    rewrite Hauto in H.
    destruct (for_loop idx [] self) as [[r1 s1] t1] eqn:EL.
    apply for_loop_spec in EL. destruct EL as [_ Hr].
    destruct r1 as [data|e].
    - destruct ((length data =? 0)%nat
                || (drop_last (base self) && (length data <? length idx)%nat)) eqn:C.
      + inversion H; subst. apply Hr. simpl.
        destruct idx as [|p idx]; [congruence|]. simpl in *.
        apply orb_true_iff in C. destruct C as [C|C].
        * apply Nat.eqb_eq in C. lia.
        * apply andb_true_iff in C. destruct C as [_ C].
          apply Nat.ltb_lt in C. lia.
      + unfold ret, call_collate_fn, perform, raise in H.
        destruct (collate_fn (base self)) as [c|] eqn:Ec; [|discriminate].
        inversion H. exfalso. eapply Hcollate; eauto.
    - inversion H; subst. contradiction. }
  split; [exact Hended|]. apply fetches_ended. exact Hended.
Qed.
End Properties.

(** The fetcher is ended by the theorem above at a source of one item asked
    for two. *)
Lemma exhausted_batched_fetch_is_final_witness :
  let self := init {| auto_collation := true; collate_fn := Some Return; drop_last := true |}
                   [VInt 1] in
  let self' := {| base := base self; dataset_iter := []; ended := true |} in
  ended self' = true /\
  fetches list_iterator_next [Batch [7%Z]; Single 0%Z] self'
  = ([Raise StopIteration; Raise StopIteration], self', []).
Proof.
  intros self self'.
  apply (@exhausted_batched_fetch_is_final _ list_iterator_next [0%Z; 0%Z] self self'
           [Next (Return (VInt 1)); Next (Raise StopIteration)]
           [Batch [7%Z]; Single 0%Z]).
  - reflexivity.
  - discriminate.
  - intros c data Hc. inversion Hc; subst. discriminate.
  - reflexivity.
Defined.

Lemma fetch_reads_only_the_length_witness :
  let self := init {| auto_collation := true; collate_fn := Some Return; drop_last := false |}
                   [VInt 1; VInt 2; VInt 3] in
  length [5%Z; 1%Z] = length [0%Z; 9%Z] /\
  fetch list_iterator_next (Batch [5%Z; 1%Z]) self
  = fetch list_iterator_next (Batch [0%Z; 9%Z]) self.
Proof.
  intros self. split; [reflexivity|].
  apply (@fetch_reads_only_the_length _ list_iterator_next [5%Z; 1%Z] [0%Z; 9%Z] self).
  reflexivity.
Defined.

(** C4 as stated fails in two ways.  With batching disabled the end of the
    data is signalled and the fetcher is not ended: the next [fetch] calls
    the cursor again.  With batching enabled an empty position batch signals
    exhaustion with the source untouched: the next [fetch] answers a
    batch. *)
Lemma exhaustion_not_final_counterexample :
  (let self := init {| auto_collation := false; collate_fn := Some Return; drop_last := false |}
                    ([] : list value) in
   fetch list_iterator_next (Single 0%Z) self
   = (Raise StopIteration, self, [Next (Raise StopIteration)]) /\
   fetch list_iterator_next (Single 1%Z) self
   <> (Raise StopIteration, self, [])) /\
  (let self := init {| auto_collation := true; collate_fn := Some Return; drop_last := false |}
                    [VInt 7] in
   fetch list_iterator_next (Batch []) self = (Raise StopIteration, self, []) /\
   fst (fst (fetch list_iterator_next (Batch [0%Z]) self)) = Return (VList [VInt 7])).
Proof.
  repeat split. discriminate.
Qed.

(** C6: batching and drop-last enabled, a source of exactly three items and
    a position batch of length four: [fetch] calls the cursor four times,
    signals exhaustion and calls no collate function (the three items are
    surfaced nowhere), and every later [fetch] signals exhaustion too. *)
Theorem drop_last_short_source collate a b c p1 p2 p3 p4 later :
  let self := init {| auto_collation := true; collate_fn := collate; drop_last := true |}
                   [a; b; c] in
  let self' := {| base := base self; dataset_iter := []; ended := true |} in
  fetch list_iterator_next (Batch [p1; p2; p3; p4]) self
  = (Raise StopIteration, self',
     [Next (Return a); Next (Return b); Next (Return c); Next (Raise StopIteration)]) /\
  fetches list_iterator_next later self'
  = (map (fun _ => Raise StopIteration) later, self', []).
Proof.
  intros self self'. split; [reflexivity|].
  apply fetches_ended. reflexivity.
Qed.

(** C7: batching enabled and drop-last disabled, a source of exactly three
    items and a position batch of length four: [fetch] answers what the
    collate function makes of the three items, in order, and the next
    [fetch] signals exhaustion without a call to the cursor. *)
Theorem keep_last_short_source collate a b c p1 p2 p3 p4 next_index :
  let self := init {| auto_collation := true; collate_fn := Some collate; drop_last := false |}
                   [a; b; c] in
  let self' := {| base := base self; dataset_iter := []; ended := true |} in
  fetch list_iterator_next (Batch [p1; p2; p3; p4]) self
  = (collate (VList [a; b; c]), self',
     [Next (Return a); Next (Return b); Next (Return c); Next (Raise StopIteration);
      Collate (VList [a; b; c]) (collate (VList [a; b; c]))]) /\
  fetch list_iterator_next next_index self' = (Raise StopIteration, self', []).
Proof.
  intros self self'. split; reflexivity.
Qed.

End IterableProperties.

(** ** The indexed fetcher *)

Module MapProperties.
Import MapDatasetFetcher.

(** The comprehension over a list whose retrievals all succeed: one call for
    each position, in the order of the list. *)
Lemma comprehension_ok ds s idx :
  forall self,
    (forall i, In i idx -> getitem ds (Single i) = Return (s i)) ->
    comprehension ds idx self
    = (Return (map s idx), self, map (fun i => GetItem (Single i) (Return (s i))) idx).
Proof.
  induction idx as [|i idx IH]; intros self Hs; [reflexivity|].
  simpl. unfold bind, perform.
  rewrite (Hs i (or_introl eq_refl)).
  rewrite (IH self (fun j Hj => Hs j (or_intror Hj))).
  unfold ret. simpl. rewrite app_nil_r. reflexivity.
Qed.

(** The comprehension calls nothing but [__getitem__], and stops at the
    first retrieval that raises, with its exception. *)
Lemma comprehension_raise ds idx :
  forall self r self' log,
    comprehension ds idx self = (r, self', log) ->
    self' = self /\
    forall ev, In ev log ->
      exists k a, ev = GetItem k a /\ forall x, a = Raise x -> r = Raise x.
Proof.
  induction idx as [|i idx IH]; intros self r self' log H.
  - inversion H; subst. split; [reflexivity|]. intros ev [].
  - simpl in H. unfold bind, perform in H.
    destruct (getitem ds (Single i)) as [v|e] eqn:Ei.
    + destruct (comprehension ds idx self) as [[r1 s1] t1] eqn:Ec.
      apply IH in Ec. destruct Ec as [-> Hlog].
      assert (Hr : forall x, r1 = Raise x -> r = Raise x).
      { intros x ->. inversion H; reflexivity. }
      assert (Hs : self' = self /\ log = GetItem (Single i) (Return v) :: t1).
      { destruct r1; inversion H; subst; rewrite ?app_nil_r; auto. }
      destruct Hs as [-> ->]. split; [reflexivity|].
      intros ev [<-|Hin].
      * exists (Single i), (Return v). split; [reflexivity|discriminate].
      * destruct (Hlog ev Hin) as (k & a & -> & Ha).
        exists k, a. split; [reflexivity|]. intros x Hx. apply Hr, Ha, Hx.
    + inversion H; subst. split; [reflexivity|].
      intros ev [<-|[]]. exists (Single i), (Raise e). split; [reflexivity|].
      intros x Hx. inversion Hx; reflexivity.
Qed.

(** The retrieval step of [fetch], before the collate call: it leaves the
    fetcher as it is, and an exception of the dataset in its log is its
    outcome. *)
Lemma retrieval_raise idx (self : t) r1 self' t1 :
  (if auto_collation (base self) then
     match getitems (dataset self) with
     | Bulk f => perform (GetItems idx) (f idx)
     | Absent | Falsy =>
         match idx with
         | Batch idx => bind (comprehension (dataset self) idx) (fun xs => ret (VList xs))
         | Single _ => raise TypeError
         end
     end
   else perform (GetItem idx) (getitem (dataset self) idx)) self = (r1, self', t1) ->
  self' = self /\
  forall k x, In (GetItem k (Raise x)) t1 \/ In (GetItems k (Raise x)) t1 -> r1 = Raise x.
Proof.
  assert (Hcomp : forall idx,
             bind (comprehension (dataset self) idx) (fun xs => ret (VList xs)) self
             = (r1, self', t1) ->
             self' = self /\
             forall k x, In (GetItem k (Raise x)) t1 \/ In (GetItems k (Raise x)) t1 ->
                         r1 = Raise x).
  { clear idx. intros idx H. unfold bind, ret in H.
    destruct (comprehension (dataset self) idx self) as [[r0 s0] t0] eqn:Ec.
    apply comprehension_raise in Ec. destruct Ec as [-> Hlog].
    assert (Ht : self' = self /\ t1 = t0 /\ forall x, r0 = Raise x -> r1 = Raise x).
    { destruct r0; inversion H; subst; rewrite ?app_nil_r; repeat split;
        intros x Hx; inversion Hx; reflexivity. }
    destruct Ht as (-> & -> & Hr). split; [reflexivity|].
    intros k x [Hin|Hin]; destruct (Hlog _ Hin) as (k' & a & Heq & Ha);
      inversion Heq; subst. apply Hr, Ha. reflexivity. }
  assert (Hperform : forall ev a,
             perform ev a self = (r1, self', t1) ->
             self' = self /\ r1 = a /\ t1 = [ev a]).
  { unfold perform. intros ev a H. inversion H; auto. }
  destruct (auto_collation (base self)).
  - destruct (getitems (dataset self)) as [| |f].
    1,2: destruct idx as [i|idx]; [|apply Hcomp];
      unfold raise; intros H; inversion H; subst; (split; [reflexivity|]);
      intros k x [[]|[]].
    intros H. apply Hperform in H. destruct H as (-> & -> & ->).
    split; [reflexivity|]. intros k x [[Hin|[]]|[Hin|[]]]; inversion Hin; reflexivity.
  - intros H. apply Hperform in H. destruct H as (-> & -> & ->).
    split; [reflexivity|]. intros k x [[Hin|[]]|[Hin|[]]]; inversion Hin; reflexivity.
Qed.

(** An exception of the dataset met during [fetch] is the outcome of
    [fetch]. *)
Lemma dataset_error_is_outcome idx self r self' log k x :
  fetch idx self = (r, self', log) ->
  In (GetItem k (Raise x)) log \/ In (GetItems k (Raise x)) log ->
  r = Raise x.
Proof.
  unfold fetch. rewrite bind_get. intros H Hin.
  apply bind_call_collate_fn in H. destruct H as (r1 & t1 & Hm & Hcases).
  apply retrieval_raise in Hm. destruct Hm as [_ Hraise].
  destruct Hcases as [(e & -> & -> & ->)|(data & tc & -> & -> & _ & Hev)].
  - apply (Hraise k x Hin).
  - assert (Hin1 : In (GetItem k (Raise x)) t1 \/ In (GetItems k (Raise x)) t1).
    { destruct Hin as [Hin|Hin]; apply in_app_or in Hin;
        (destruct Hin as [Hin|Hin]; [auto|]);
        destruct (Hev _ Hin) as (d & a & Heq); discriminate. }
    specialize (Hraise k x Hin1). discriminate.
Qed.

(** The batched fetch on a dataset without bulk retrieval, every retrieval
    succeeding. *)
Lemma fetch_one_by_one self idx s :
  auto_collation (base self) = true ->
  getitems (dataset self) = Absent \/ getitems (dataset self) = Falsy ->
  (forall i, In i idx -> getitem (dataset self) (Single i) = Return (s i)) ->
  fetch (Batch idx) self
  = match call_collate_fn (base self) (VList (map s idx)) self with
    | (r, s', t) => (r, s', map (fun i => GetItem (Single i) (Return (s i))) idx ++ t)
    end.
Proof.
  intros Hauto Hno Hs. unfold fetch. rewrite bind_get, Hauto.
  assert (Hcomp :
      bind (bind (comprehension (dataset self) idx) (fun xs => ret (VList xs)))
           (call_collate_fn (base self)) self
      = match call_collate_fn (base self) (VList (map s idx)) self with
        | (r, s', t) =>
            (r, s', map (fun i => GetItem (Single i) (Return (s i))) idx ++ t)
        end).
  { unfold bind at 1 2. rewrite (comprehension_ok _ s idx self Hs).
    unfold ret. rewrite app_nil_r. reflexivity. }
  destruct Hno as [-> | ->]; exact Hcomp.
Qed.

(** C8: the indexed fetcher with batching enabled.  On a dataset with bulk
    retrieval, [fetch] makes one bulk call, with the position list as it
    was given, and hands what it answers to the collate function.  On a
    dataset without, [fetch] retrieves the positions one by one in the order
    of the list and hands the samples, in that order, to the collate
    function. *)
Theorem batched_fetch_calls self idx :
  auto_collation (base self) = true ->
  (forall f, getitems (dataset self) = Bulk f ->
     fetch (Batch idx) self
     = match f (Batch idx) with
       | Return data =>
           match call_collate_fn (base self) data self with
           | (r, s, t) => (r, s, GetItems (Batch idx) (Return data) :: t)
           end
       | Raise e => (Raise e, self, [GetItems (Batch idx) (Raise e)])
       end) /\
  (forall s,
     getitems (dataset self) = Absent \/ getitems (dataset self) = Falsy ->
     (forall i, In i idx -> getitem (dataset self) (Single i) = Return (s i)) ->
     fetch (Batch idx) self
     = match call_collate_fn (base self) (VList (map s idx)) self with
       | (r, s', t) => (r, s', map (fun i => GetItem (Single i) (Return (s i))) idx ++ t)
       end).
Proof.
  intros Hauto. split.
  - intros f Hf. unfold fetch. rewrite bind_get, Hauto, Hf.
    unfold bind, perform. destruct (f (Batch idx)) as [data|e]; [|reflexivity].
    destruct (call_collate_fn (base self) data self) as [[r s] t]. reflexivity.
  - intros s Hno Hs. apply fetch_one_by_one; assumption.
Qed.

(** Positions [2, 0, 1]: the bulk call receives [2, 0, 1]; without bulk
    retrieval the positions are retrieved in the order 2, 0, 1. *)
Lemma batched_fetch_calls_witness :
  let sample := fun k => match k with
                         | Single i => Return (VInt (i + 100))
                         | Batch l => Return (VList (map VInt l))
                         end in
  let b := {| auto_collation := true; collate_fn := Some Return; drop_last := false |} in
  let bulk := {| base := b; dataset := {| getitem := sample; getitems := Bulk sample |} |} in
  let plain := {| base := b; dataset := {| getitem := sample; getitems := Absent |} |} in
  fetch (Batch [2; 0; 1]%Z) bulk
  = (Return (VList [VInt 2; VInt 0; VInt 1]), bulk,
     [GetItems (Batch [2; 0; 1]%Z) (Return (VList [VInt 2; VInt 0; VInt 1]));
      Collate (VList [VInt 2; VInt 0; VInt 1]) (Return (VList [VInt 2; VInt 0; VInt 1]))]) /\
  fetch (Batch [2; 0; 1]%Z) plain
  = (Return (VList [VInt 102; VInt 100; VInt 101]), plain,
     [GetItem (Single 2%Z) (Return (VInt 102)); GetItem (Single 0%Z) (Return (VInt 100));
      GetItem (Single 1%Z) (Return (VInt 101));
      Collate (VList [VInt 102; VInt 100; VInt 101])
              (Return (VList [VInt 102; VInt 100; VInt 101]))]).
Proof.
  intros sample b bulk plain. split.
  - exact (proj1 (batched_fetch_calls bulk [2; 0; 1]%Z eq_refl) sample eq_refl).
  - exact (proj2 (batched_fetch_calls plain [2; 0; 1]%Z eq_refl)
             (fun i => VInt (i + 100)) (or_introl eq_refl) (fun i _ => eq_refl)).
Defined.

End MapProperties.

(** ** The synchronous fetchers together *)

(** C9: in the sequential and the indexed fetcher an error raised by the
    source during [fetch] is the outcome of [fetch], as it was raised.  For
    the sequential fetcher the errors are the exceptions of the cursor
    other than [StopIteration], its signal for the end of the data; with
    batching disabled that signal reaches the caller as well. *)
Theorem source_errors_propagate :
  (forall Cursor (next_ : Cursor -> outcome value * Cursor) idx self r self' log x,
     IterableDatasetFetcher.fetch next_ idx self = (r, self', log) ->
     In (Next (Raise x)) log ->
     x <> StopIteration \/ auto_collation (IterableDatasetFetcher.base self) = false ->
     r = Raise x) /\
  (forall idx self r self' log k x,
     MapDatasetFetcher.fetch idx self = (r, self', log) ->
     In (GetItem k (Raise x)) log \/ In (GetItems k (Raise x)) log ->
     r = Raise x).
Proof.
  split.
  - intros Cursor next_ idx self r self' log x. apply IterableProperties.cursor_error_is_outcome.
  - intros idx self r self' log k x. apply MapProperties.dataset_error_is_outcome.
Qed.

(** ** The concurrent fetcher *)

Module AsyncProperties.
Import AsyncMapDatasetFetcher.

(** *** The sort *)

Ltac leb_cases :=
  repeat match goal with
         | |- context [(?a <=? ?b)%Z] => destruct (Z.leb_spec a b)
         end.

Lemma insert_perm x l : Permutation (insert x l) (x :: l).
Proof.
  induction l as [|y l IH]; simpl; [reflexivity|].
  destruct (fst x <=? fst y)%Z; [reflexivity|].
  rewrite IH. apply perm_swap.
Qed.

Lemma sort_by_index_perm l : Permutation (sort_by_index l) l.
Proof.
  induction l as [|x l IH]; simpl; [reflexivity|].
  rewrite insert_perm. apply perm_skip, IH.
Qed.

(** Two entries that agree whenever their indices do are inserted in either
    order with the same result. *)
Lemma insert_comm x y l :
  (fst x = fst y -> x = y) ->
  insert x (insert y l) = insert y (insert x l).
Proof.
  intros Hxy. induction l as [|z l IH]; simpl.
  - leb_cases; try reflexivity; try lia.
    rewrite Hxy by lia. reflexivity.
  - leb_cases; simpl; leb_cases; try reflexivity; try lia.
    + rewrite Hxy by lia. reflexivity.
    + rewrite IH. reflexivity.
Qed.

(** On entries whose index determines them, the sorted list depends on the
    entries alone and not on their order. *)
Lemma sort_by_index_permutation l1 l2 :
  Permutation l1 l2 ->
  (forall x y, In x l1 -> In y l1 -> fst x = fst y -> x = y) ->
  sort_by_index l1 = sort_by_index l2.
Proof.
  induction 1 as [|x l l' Hp IH|x y l|l l' l'' Hp1 IH1 Hp2 IH2]; intros Hf.
  - reflexivity.
  - simpl. rewrite IH; [reflexivity|]. intros a b Ha Hb. apply Hf; right; assumption.
  - simpl. apply insert_comm. apply Hf; simpl; auto.
  - rewrite IH1 by exact Hf. apply IH2.
    intros a b Ha Hb.
    apply Hf; apply (Permutation_in _ (Permutation_sym Hp1)); assumption.
Qed.

(** A list in the order of its indices is left as it is. *)
Lemma sort_by_index_sorted l :
  Sorted (fun x y => (fst x <= fst y)%Z) l -> sort_by_index l = l.
Proof.
  induction 1 as [|x l Hs IH Hhd]; simpl; [reflexivity|].
  rewrite IH. destruct Hhd as [|y l Hxy]; simpl; [reflexivity|].
  destruct (Z.leb_spec (fst x) (fst y)); [reflexivity|lia].
Qed.

Lemma insert_hd x y l :
  HdRel (fun a b => (fst a <= fst b)%Z) y l ->
  (fst y <= fst x)%Z ->
  HdRel (fun a b => (fst a <= fst b)%Z) y (insert x l).
Proof.
  intros Hhd Hyx. destruct l as [|z l]; simpl; [constructor; exact Hyx|].
  destruct (fst x <=? fst z)%Z; constructor; [exact Hyx|].
  inversion Hhd; assumption.
Qed.

Lemma insert_sorted x l :
  Sorted (fun a b => (fst a <= fst b)%Z) l ->
  Sorted (fun a b => (fst a <= fst b)%Z) (insert x l).
Proof.
  induction 1 as [|y l Hs IH Hhd]; simpl; [repeat constructor|].
  destruct (Z.leb_spec (fst x) (fst y)).
  - constructor; [constructor; assumption|constructor; assumption].
  - constructor; [exact IH|]. apply insert_hd; [exact Hhd|lia].
Qed.

(** The sort leaves the list in the order of the indices. *)
Lemma sort_by_index_is_sorted l :
  Sorted (fun a b => (fst a <= fst b)%Z) (sort_by_index l).
Proof.
  induction l as [|x l IH]; simpl; [constructor|]. apply insert_sorted, IH.
Qed.

(** *** The pool *)

Lemma survived_set_on_future r : survived r = true -> set_on_future r = true.
Proof. destruct r as [v|[]]; simpl; congruence. Qed.

Lemma set_on_future_survived r :
  set_on_future r = true ->
  (forall what, r <> Raise (BaseException what)) ->
  survived r = true.
Proof.
  destruct r as [v|[| | |what|what]]; simpl; intros H Hb;
    try reflexivity; try discriminate.
  exfalso. apply (Hb what). reflexivity.
Qed.

Section Pool.
Variable ds : MapDataset.

(** The indices still to be answered: those being retrieved and those in
    the task queue. *)
Local Abbreviation outstanding st := (map snd (running st) ++ task_queue st).

Lemma successes_app l1 l2 : successes ds (l1 ++ l2) = successes ds l1 ++ successes ds l2.
Proof. apply flat_map_app. Qed.

Lemma failures_app l1 l2 : failures ds (l1 ++ l2) = failures ds l1 ++ failures ds l2.
Proof. apply flat_map_app. Qed.

Lemma in_successes i v l :
  In (i, v) (successes ds l) <-> In i l /\ getitem ds (Single i) = Return v.
Proof.
  unfold successes. rewrite in_flat_map. split.
  - intros (j & Hj & Hin). destruct (getitem ds (Single j)) eqn:E; [|destruct Hin].
    destruct Hin as [Heq|[]]. inversion Heq; subst. auto.
  - intros [Hi Hv]. exists i. rewrite Hv. simpl. auto.
Qed.

(** The index of an entry of the result queue determines the entry. *)
Lemma successes_functional l x y :
  In x (successes ds l) -> In y (successes ds l) -> fst x = fst y -> x = y.
Proof.
  destruct x as [i v], y as [j w]. rewrite !in_successes. simpl.
  intros [_ Hv] [_ Hw] <-. congruence.
Qed.

Lemma worker_loop_spec w st :
  outstanding (worker_loop w st) = outstanding st /\
  result_queue (worker_loop w st) = result_queue st /\
  stdout (worker_loop w st) = stdout st /\
  (running (worker_loop w st) = [] -> task_queue (worker_loop w st) = []) /\
  length (running (worker_loop w st)) + length (task_queue (worker_loop w st))
  = length (running st) + length (task_queue st).
Proof.
  unfold worker_loop. destruct (task_queue st) as [|i rest] eqn:E; simpl.
  - rewrite E. auto.
  - rewrite map_app, <- app_assoc, length_app. simpl. repeat split; try lia.
    intros H. apply app_eq_nil in H. destruct H as [_ H]. discriminate.
Qed.

Lemma remove_nth_perm A (l : list A) :
  forall k x, nth_error l k = Some x ->
              Permutation (x :: remove_nth k l) l /\ length l = S (length (remove_nth k l)).
Proof.
  induction l as [|y l IH]; intros [|k] x H; simpl in *; try discriminate.
  - inversion H; subst. auto.
  - destruct (IH k x H) as [Hp Hl]. split; [|lia].
    rewrite perm_swap. apply perm_skip, Hp.
Qed.

(** A retrieval that ends in a [StopIteration] changes nothing. *)
Lemma worker_resume_stuck k st w i :
  nth_error (running st) k = Some (w, i) ->
  set_on_future (getitem ds (Single i)) = false ->
  worker_resume ds k st = st.
Proof.
  intros H Hf. unfold worker_resume. rewrite H.
  destruct (getitem ds (Single i)) as [v|[]]; simpl in Hf; try discriminate.
  reflexivity.
Qed.

(** A retrieval whose end resumes the worker leaves the outstanding indices
    less its own and puts its entry, if it has one, on the result queue;
    when the worker goes round its loop the exception, if there is one, is
    printed. *)
Lemma worker_resume_spec k st w i :
  nth_error (running st) k = Some (w, i) ->
  set_on_future (getitem ds (Single i)) = true ->
  Permutation (i :: outstanding (worker_resume ds k st)) (outstanding st) /\
  result_queue (worker_resume ds k st) = result_queue st ++ successes ds [i] /\
  S (length (running (worker_resume ds k st)) + length (task_queue (worker_resume ds k st)))
  = length (running st) + length (task_queue st) /\
  (survived (getitem ds (Single i)) = true ->
   map snd (stdout (worker_resume ds k st)) = map snd (stdout st) ++ failures ds [i] /\
   (running (worker_resume ds k st) = [] -> task_queue (worker_resume ds k st) = [])).
Proof.
  intros H Hf. unfold worker_resume. rewrite H.
  destruct (remove_nth_perm _ _ H) as [Hp Hl].
  apply (Permutation_map snd) in Hp. simpl in Hp.
  unfold successes, failures. simpl.
  destruct (getitem ds (Single i)) as [v|[| | |what|what]]; simpl in Hf;
    try discriminate;
    try match goal with
        | |- context [worker_loop w ?s] =>
            destruct (worker_loop_spec w s) as (-> & -> & -> & Hq & Hm)
        end; simpl in *; rewrite ?map_app, ?app_nil_r; simpl;
    (split; [apply (Permutation_app_tail _ Hp)|]);
    (split; [reflexivity|]); (split; [lia|]);
    intros Hs; try discriminate; (split; [reflexivity|exact Hq]).
Qed.

Lemma running_outstanding st k w i :
  nth_error (running st) k = Some (w, i) -> In i (outstanding st).
Proof.
  intros H. apply in_or_app. left.
  apply (in_map snd _ (w, i)), (nth_error_In _ _ H).
Qed.

(** What any order of completion keeps.  The outstanding indices stay among
    those of the batch, and an index whose retrieval ends in a
    [StopIteration] stays outstanding.  The result queue and the entries of
    the outstanding indices make up the entries of the batch.  When no
    retrieval raises outside [Exception], a worker runs while a task waits;
    and when every worker goes round its loop, the printed exceptions and
    those of the outstanding indices make up the exceptions of the batch. *)
Lemma gathering_spec batch st st' :
  gathering ds st st' ->
  (forall i, In i (outstanding st) -> In i batch) ->
  Permutation (result_queue st ++ successes ds (outstanding st)) (successes ds batch) ->
  (forall i, In i (outstanding st') -> In i batch) /\
  Permutation (result_queue st' ++ successes ds (outstanding st')) (successes ds batch) /\
  (forall i, set_on_future (getitem ds (Single i)) = false ->
             In i (outstanding st) -> In i (outstanding st')) /\
  ((forall i what, In i batch -> getitem ds (Single i) <> Raise (BaseException what)) ->
   (running st = [] -> task_queue st = []) ->
   running st' = [] -> task_queue st' = []) /\
  ((forall i, In i batch -> survived (getitem ds (Single i)) = true) ->
   Permutation (map snd (stdout st) ++ failures ds (outstanding st)) (failures ds batch) ->
   Permutation (map snd (stdout st') ++ failures ds (outstanding st')) (failures ds batch)).
Proof.
  induction 1 as [st|st k st' Hk Hg IH]; intros Hin Hs; [repeat split; auto|].
  destruct (nth_error (running st) k) as [[w i]|] eqn:E;
    [|apply nth_error_None in E; lia].
  pose proof (running_outstanding _ _ E) as Hi.
  destruct (set_on_future (getitem ds (Single i))) eqn:Hf.
  2:{ rewrite (worker_resume_stuck _ _ E Hf) in IH. apply IH; assumption. }
  destruct (worker_resume_spec _ _ E Hf) as (Hp & Hr & _ & Hsurv).
  destruct IH as (IH1 & IH2 & IH3 & IH4 & IH5).
  - intros j Hj. apply Hin, (Permutation_in _ Hp). right. exact Hj.
  - rewrite Hr, <- app_assoc, <- successes_app.
    etransitivity; [|exact Hs]. apply Permutation_app_head.
    exact (Permutation_flat_map _ Hp).
  - split; [exact IH1|]. split; [exact IH2|]. split; [|split].
    + intros j Hj Hjin. apply IH3; [exact Hj|].
      apply (Permutation_in _ (Permutation_sym Hp)) in Hjin.
      destruct Hjin as [->|Hjin]; [congruence|exact Hjin].
    + intros Hb _. apply IH4; [exact Hb|].
      apply Hsurv, set_on_future_survived; [exact Hf|].
      intros what. apply Hb, Hin, Hi.
    + intros Hall Hfl. apply IH5; [exact Hall|].
      destruct (Hsurv (Hall i (Hin i Hi))) as [Ho _].
      rewrite Ho, <- app_assoc, <- failures_app.
      etransitivity; [|exact Hfl]. apply Permutation_app_head.
      exact (Permutation_flat_map _ Hp).
Qed.

(** The workers that can be resumed. *)
Lemma ready_spec st k :
  In k (ready ds st) <->
  exists w i, nth_error (running st) k = Some (w, i)
              /\ set_on_future (getitem ds (Single i)) = true.
Proof.
  unfold ready, resumable. rewrite filter_In, in_seq. split.
  - intros [_ Hr]. destruct (nth_error (running st) k) as [[w i]|]; [eauto|discriminate].
  - intros (w & i & E & Hf). rewrite E. split; [|exact Hf].
    split; [lia|]. simpl. apply nth_error_Some. congruence.
Qed.

Lemma ready_pick st k ks n :
  ready ds st = k :: ks ->
  In (nth (n mod length (k :: ks)) (k :: ks) k) (ready ds st).
Proof.
  intros ->. apply nth_In. apply Nat.mod_upper_bound. discriminate.
Qed.

(** With every suspended worker able to be resumed, none is ready only when
    none is suspended. *)
Lemma ready_nil st :
  ready ds st = [] ->
  (forall w i, In (w, i) (running st) -> set_on_future (getitem ds (Single i)) = true) ->
  running st = [].
Proof.
  intros Hr Hall. destruct (running st) as [|[w i] rs] eqn:E; [reflexivity|].
  assert (H0 : In 0 (ready ds st)).
  { apply ready_spec. exists w, i. rewrite E. split; [reflexivity|].
    apply (Hall w i). left. reflexivity. }
  rewrite Hr in H0. destruct H0.
Qed.

(** A schedule is one order of completion. *)
Lemma gather_gathering fuel :
  forall schedule st, gathering ds st (gather ds fuel schedule st).
Proof.
  induction fuel as [|fuel IH]; intros schedule st; cbn [gather].
  - destruct (ready ds st); apply gathering_refl.
  - destruct (ready ds st) as [|k ks] eqn:E; [apply gathering_refl|].
    eapply gathering_step; [|apply IH].
    pose proof (ready_pick st (hd 0 schedule) E) as Hin.
    apply ready_spec in Hin. destruct Hin as (w & i & En & _).
    apply nth_error_Some. congruence.
Qed.

(** With fuel for every outstanding index, [gather] ends with no worker
    left that can be resumed. *)
Lemma gather_done fuel :
  forall schedule st,
    length (running st) + length (task_queue st) <= fuel ->
    ready ds (gather ds fuel schedule st) = [].
Proof.
  induction fuel as [|fuel IH]; intros schedule st Hm; cbn [gather].
  - assert (E : running st = []) by (destruct (running st); [reflexivity|simpl in Hm; lia]).
    assert (Hr : ready ds st = []) by (unfold ready; rewrite E; reflexivity).
    rewrite Hr. reflexivity.
  - destruct (ready ds st) as [|k ks] eqn:E; [exact E|].
    apply IH.
    pose proof (ready_pick st (hd 0 schedule) E) as Hin.
    apply ready_spec in Hin. destruct Hin as (w & i & En & Hf).
    destruct (worker_resume_spec _ _ En Hf) as (_ & _ & Hl & _). lia.
Qed.

Lemma create_tasks_spec n :
  forall w st,
    outstanding (create_tasks w n st) = outstanding st /\
    result_queue (create_tasks w n st) = result_queue st /\
    stdout (create_tasks w n st) = stdout st /\
    length (running (create_tasks w n st)) + length (task_queue (create_tasks w n st))
    = length (running st) + length (task_queue st) /\
    ((running st = [] -> task_queue st = []) \/ 1 <= n ->
     running (create_tasks w n st) = [] -> task_queue (create_tasks w n st) = []).
Proof.
  induction n as [|n IH]; intros w st; simpl.
  - repeat split. intros [H|H]; [exact H|lia].
  - destruct (IH (S w) (worker_loop w st)) as (-> & -> & -> & -> & Hq).
    destruct (worker_loop_spec w st) as (-> & -> & -> & Hq' & ->).
    repeat split. intros _. apply Hq. left. exact Hq'.
Qed.
End Pool.

(** *** The fetch *)

(** The pool at the start of a call, its tasks created. *)
Local Abbreviation started self batch :=
  (create_tasks 0 (thread_pool_size self)
     {| task_queue := batch; result_queue := []; running := []; stdout := [] |}).

Local Abbreviation outstanding st := (map snd (running st) ++ task_queue st).

Lemma survived_no_base ds (batch : list Z) :
  (forall i, In i batch -> survived (getitem ds (Single i)) = true) ->
  forall i what, In i batch -> getitem ds (Single i) <> Raise (BaseException what).
Proof.
  intros Hall i what Hi E. specialize (Hall i Hi). rewrite E in Hall. discriminate.
Qed.

(** What holds of the pool of a call, whatever the order of completion. *)
Lemma gathering_started self batch st :
  gathering (dataset self) (started self batch) st ->
  (forall i, In i (outstanding st) -> In i batch) /\
  Permutation (result_queue st ++ successes (dataset self) (outstanding st))
              (successes (dataset self) batch) /\
  (forall i, In i batch -> set_on_future (getitem (dataset self) (Single i)) = false ->
             In i (outstanding st)) /\
  (1 <= thread_pool_size self ->
   (forall i what, In i batch -> getitem (dataset self) (Single i) <> Raise (BaseException what)) ->
   running st = [] -> task_queue st = []) /\
  ((forall i, In i batch -> survived (getitem (dataset self) (Single i)) = true) ->
   Permutation (map snd (stdout st) ++ failures (dataset self) (outstanding st))
               (failures (dataset self) batch)).
Proof.
  intros Hg.
  destruct (create_tasks_spec (thread_pool_size self) 0
              {| task_queue := batch; result_queue := []; running := []; stdout := [] |})
    as (Ho & Hr & Hs & _ & Hq).
  simpl in Ho, Hr, Hs.
  destruct (@gathering_spec (dataset self) batch _ _ Hg) as (H1 & H2 & H3 & H4 & H5).
  - rewrite Ho. auto.
  - rewrite Hr, Ho. reflexivity.
  - split; [exact H1|]. split; [exact H2|]. split; [|split].
    + intros i Hi Hf. apply H3; [exact Hf|]. rewrite Ho. exact Hi.
    + intros HW Hb. apply H4; [exact Hb|]. apply Hq. right. exact HW.
    + intros Hall. apply H5; [exact Hall|]. rewrite Hs, Ho. reflexivity.
Qed.

(** Whatever the order of completion, when no retrieval raises outside
    [Exception] and no worker is left suspended, the task queue is empty
    and the result queue holds the entries of the indices whose retrieval
    returned. *)
Lemma gathering_result self batch st :
  1 <= thread_pool_size self ->
  (forall i what, In i batch -> getitem (dataset self) (Single i) <> Raise (BaseException what)) ->
  gathering (dataset self) (started self batch) st ->
  running st = [] ->
  task_queue st = [] /\
  Permutation (result_queue st) (successes (dataset self) batch).
Proof.
  intros HW Hb Hg Hdone.
  destruct (gathering_started self batch Hg) as (_ & Hps & _ & Hq & _).
  specialize (Hq HW Hb Hdone). split; [exact Hq|].
  rewrite Hdone, Hq in Hps. simpl in Hps. rewrite app_nil_r in Hps. exact Hps.
Qed.

Lemma gathered_gathering self schedule batch :
  gathering (dataset self) (started self batch) (gathered self schedule batch).
Proof. apply gather_gathering. Qed.

(** [gather] is given fuel enough: at its end no worker is left that can
    be resumed. *)
Lemma gathered_ready self schedule batch :
  ready (dataset self) (gathered self schedule batch) = [].
Proof.
  apply gather_done.
  destruct (create_tasks_spec (thread_pool_size self) 0
              {| task_queue := batch; result_queue := []; running := []; stdout := [] |})
    as (_ & _ & _ & -> & _).
  simpl. lia.
Qed.

(** When every worker goes round its loop after each retrieval of the
    batch, the tasks are gathered under every schedule, with every index
    answered. *)
Lemma gathered_spec self schedule batch :
  1 <= thread_pool_size self ->
  (forall i, In i batch -> survived (getitem (dataset self) (Single i)) = true) ->
  running (gathered self schedule batch) = [] /\
  task_queue (gathered self schedule batch) = [] /\
  Permutation (result_queue (gathered self schedule batch)) (successes (dataset self) batch) /\
  Permutation (map snd (stdout (gathered self schedule batch)))
              (failures (dataset self) batch).
Proof.
  intros HW Hall.
  destruct (gathering_started self batch (gathered_gathering self schedule batch))
    as (Hin & _ & _ & _ & Hpf).
  assert (Hdone : running (gathered self schedule batch) = []).
  { apply (@ready_nil (dataset self)); [apply gathered_ready|].
    intros w i Hwi. apply survived_set_on_future, Hall, Hin, in_or_app. left.
    apply (in_map snd _ (w, i)), Hwi. }
  destruct (gathering_result self batch HW (survived_no_base _ _ Hall)
              (gathered_gathering self schedule batch) Hdone) as (Hq & Hps).
  specialize (Hpf Hall). rewrite Hdone, Hq in Hpf. simpl in Hpf.
  rewrite app_nil_r in Hpf. auto.
Qed.

(** [fetch] returns when no worker is left suspended, and only then. *)
Lemma fetch_returns self schedule batch :
  running (gathered self schedule batch) = [] ->
  fetch schedule batch self
  = Some (collate_result_list
            (sort_by_index (result_queue (gathered self schedule batch))) self).
Proof.
  intros H. unfold fetch, initiate_fetch_tasks. rewrite H. reflexivity.
Qed.

Lemma fetch_returned self schedule batch r :
  fetch schedule batch self = Some r ->
  running (gathered self schedule batch) = [] /\
  r = collate_result_list
        (sort_by_index (result_queue (gathered self schedule batch))) self.
Proof.
  unfold fetch, initiate_fetch_tasks.
  destruct (running (gathered self schedule batch)); [|discriminate].
  intros H. injection H as <-. auto.
Qed.

(** When every worker goes round its loop after each retrieval of the
    batch, [fetch] returns and its outcome does not depend on the
    schedule: the entries of the retrievals that returned, sorted by index,
    go to the end of [initiate_fetch_tasks]. *)
Lemma fetch_sorted self schedule batch :
  1 <= thread_pool_size self ->
  (forall i, In i batch -> survived (getitem (dataset self) (Single i)) = true) ->
  fetch schedule batch self
  = Some (collate_result_list (sort_by_index (successes (dataset self) batch)) self).
Proof.
  intros HW Hall.
  destruct (gathered_spec self schedule batch HW Hall) as (Hdone & _ & Hp & _).
  rewrite (fetch_returns self schedule batch Hdone).
  rewrite (sort_by_index_permutation Hp); [reflexivity|].
  intros x y Hx Hy.
  apply (successes_functional (dataset self) batch);
    apply (Permutation_in _ Hp); assumption.
Qed.

(** A worker whose retrieval ends in a [StopIteration] stays suspended, and
    [fetch] does not return: with a worker in the pool and no retrieval
    raising outside [Exception], the index is reached under every
    schedule. *)
Lemma stuck_worker_blocks self schedule batch i :
  1 <= thread_pool_size self ->
  (forall j what, In j batch -> getitem (dataset self) (Single j) <> Raise (BaseException what)) ->
  In i batch ->
  getitem (dataset self) (Single i) = Raise StopIteration ->
  fetch schedule batch self = None.
Proof.
  intros HW Hb Hi Hstop.
  destruct (fetch schedule batch self) as [r|] eqn:E; [|reflexivity].
  apply fetch_returned in E. destruct E as [Hdone _].
  destruct (gathering_started self batch (gathered_gathering self schedule batch))
    as (_ & _ & Hstuck & Hq & _).
  specialize (Hq HW Hb Hdone).
  specialize (Hstuck i Hi). rewrite Hstop in Hstuck. specialize (Hstuck eq_refl).
  rewrite Hdone, Hq in Hstuck. destruct Hstuck.
Qed.

Lemma successes_ok ds s l :
  (forall i, In i l -> getitem ds (Single i) = Return (s i)) ->
  successes ds l = map (fun i => (i, s i)) l /\ failures ds l = []
  /\ forall i, In i l -> survived (getitem ds (Single i)) = true.
Proof.
  intros Hs. split; [|split].
  - unfold successes. induction l as [|i l IH]; [reflexivity|]. simpl.
    rewrite (Hs i (or_introl eq_refl)), IH; [reflexivity|].
    intros j Hj. apply Hs. right. exact Hj.
  - unfold failures. induction l as [|i l IH]; [reflexivity|]. simpl.
    rewrite (Hs i (or_introl eq_refl)), IH; [reflexivity|].
    intros j Hj. apply Hs. right. exact Hj.
  - intros i Hi. rewrite (Hs i Hi). reflexivity.
Qed.

Lemma subscript1_not_StopIteration v : subscript1 v <> Raise StopIteration.
Proof.
  destruct v as [i|s|l|l]; unfold subscript1; try discriminate.
  - destruct (String.get 1 s); discriminate.
  - destruct (nth_error l 1); discriminate.
  - destruct (nth_error l 1); discriminate.
Qed.

Lemma collate_result_list_None self result_list :
  collate_fn (base self) = None ->
  collate_result_list result_list self = (Return (tuples result_list), self, []).
Proof.
  intros H. unfold collate_result_list, in_coroutine. rewrite bind_get, H. reflexivity.
Qed.

(** The collate function is called once, on the list of tuples; a
    [StopIteration] that it raises leaves the coroutine as a
    [RuntimeError]. *)
Lemma collate_result_list_Some self result_list c :
  collate_fn (base self) = Some c ->
  collate_result_list result_list self
  = (match c (tuples result_list) with
     | Return collated => subscript1 collated
     | Raise StopIteration =>
         Raise (Exception "RuntimeError: coroutine raised StopIteration")
     | Raise e => Raise e
     end, self, [Collate (tuples result_list) (c (tuples result_list))]).
Proof.
  intros H. unfold collate_result_list, in_coroutine. rewrite bind_get, H.
  unfold bind, perform. destruct (c (tuples result_list)) as [collated|[]]; try reflexivity.
  pose proof (subscript1_not_StopIteration collated) as Hn.
  destruct (subscript1 collated) as [x|[]]; try reflexivity. contradiction.
Qed.

(** C1, at the positions [5, 1, 3] with every retrieval succeeding: under
    every schedule of the workers the concurrent fetcher hands on the
    entries in the order of their index, [(1, s1), (3, s3), (5, s5)], where
    the order of the positions is [(5, s5), (1, s1), (3, s3)].  The first
    part is about every order in which the retrievals may complete, the
    other two about [fetch] under a schedule. *)
Theorem fetch_5_1_3_in_index_order self schedule s5 s1 s3 :
  1 <= thread_pool_size self ->
  getitem (dataset self) (Single 5%Z) = Return s5 ->
  getitem (dataset self) (Single 1%Z) = Return s1 ->
  getitem (dataset self) (Single 3%Z) = Return s3 ->
  (forall st,
     gathering (dataset self) (started self [5; 1; 3]%Z) st ->
     running st = [] ->
     sort_by_index (result_queue st) = [(1, s1); (3, s3); (5, s5)]%Z) /\
  fetch schedule [5; 1; 3]%Z self
  = Some (collate_result_list [(1, s1); (3, s3); (5, s5)]%Z self) /\
  (collate_fn (base self) = None ->
   fetch schedule [5; 1; 3]%Z self
   = Some (Return (VList [VTuple [VInt 1; s1]; VTuple [VInt 3; s3]; VTuple [VInt 5; s5]]),
           self, [])).
Proof.
  intros HW H5 H1 H3.
  assert (Hs : sort_by_index (successes (dataset self) [5; 1; 3]%Z)
               = [(1, s1); (3, s3); (5, s5)]%Z).
  { unfold successes. simpl. rewrite H5, H1, H3. reflexivity. }
  assert (Hall : forall i, In i [5; 1; 3]%Z
                           -> survived (getitem (dataset self) (Single i)) = true).
  { intros i [<-|[<-|[<-|[]]]]; rewrite ?H5, ?H1, ?H3; reflexivity. }
  split; [|split].
  - intros st Hg Hdone.
    destruct (gathering_result self [5; 1; 3]%Z HW (survived_no_base _ _ Hall) Hg Hdone)
      as (_ & Hp).
    rewrite (sort_by_index_permutation Hp); [exact Hs|].
    intros x y Hx Hy.
    apply (successes_functional (dataset self) [5; 1; 3]%Z);
      apply (Permutation_in _ Hp); assumption.
  - rewrite (fetch_sorted self schedule _ HW Hall), Hs. reflexivity.
  - intros Hc. rewrite (fetch_sorted self schedule _ HW Hall), Hs.
    f_equal. apply collate_result_list_None, Hc.
Qed.


(** C5, amended: the list that the concurrent fetcher hands on is in the
    order of the positions, it holds the entries of the result queue and no
    other, and each entry is a position of the batch with the sample
    retrieved at it; when every retrieval returns or raises an exception
    that is printed, these are the entries of all the positions whose
    retrieval returned.  With a collate function set, a call that succeeds
    has called the collate function once, on the Python list of the
    [(position, sample)] tuples of that list, and returns [[1]] of what it
    answered, its second element when the answer has two; with no collate
    function set, a call that returns returns that list of tuples itself
    and has called nothing. *)
Theorem collate_receives_pairs self schedule batch :
  let result_list := sort_by_index (result_queue (gathered self schedule batch)) in
  let pairs := VList (map (fun v => VTuple [VInt (fst v); snd v]) result_list) in
  Sorted (fun a b => (fst a <= fst b)%Z) result_list /\
  Permutation result_list (result_queue (gathered self schedule batch)) /\
  Forall (fun v => In (fst v) batch
                   /\ getitem (dataset self) (Single (fst v)) = Return (snd v)) result_list /\
  (1 <= thread_pool_size self ->
   (forall i, In i batch -> survived (getitem (dataset self) (Single i)) = true) ->
   Permutation result_list (successes (dataset self) batch)) /\
  (forall c r self' log,
     collate_fn (base self) = Some c ->
     fetch schedule batch self = Some (Return r, self', log) ->
     exists collated,
       c pairs = Return collated /\
       log = [Collate pairs (Return collated)] /\
       subscript1 collated = Return r /\
       self' = self /\
       forall first second,
         collated = VTuple [first; second] \/ collated = VList [first; second] ->
         r = second) /\
  (forall out self' log,
     collate_fn (base self) = None ->
     fetch schedule batch self = Some (out, self', log) ->
     out = Return pairs /\ self' = self /\ log = []).
Proof.
  intros result_list pairs.
  split; [apply sort_by_index_is_sorted|].
  split; [apply sort_by_index_perm|].
  split; [|split; [|split]].
  - apply Forall_forall. intros [i v] Hin.
    destruct (gathering_started self batch (gathered_gathering self schedule batch))
      as (_ & Hp & _).
    apply (Permutation_in _ (sort_by_index_perm _)) in Hin.
    apply (in_successes (dataset self) i v batch).
    apply (Permutation_in _ Hp), in_or_app. left. exact Hin.
  - intros HW Hall.
    destruct (gathered_spec self schedule batch HW Hall) as (_ & _ & Hp & _).
    unfold result_list. rewrite sort_by_index_perm. exact Hp.
  - intros c r self' log Hc H. apply fetch_returned in H. destruct H as [_ H].
    fold result_list in H.
    rewrite (collate_result_list_Some self result_list Hc) in H.
    fold (tuples result_list) in pairs. fold pairs in H.
    destruct (c pairs) as [collated|e] eqn:Ec.
    + injection H as Hsub Hself Hlog. exists collated.
      repeat split; auto.
      intros first second [-> | ->]; simpl in Hsub; congruence.
    + destruct e; discriminate.
  - intros out self' log Hc H. apply fetch_returned in H. destruct H as [_ H].
    fold result_list in H.
    rewrite (collate_result_list_None self result_list Hc) in H.
    injection H as -> -> ->. auto.
Qed.

(** The fetchers that [init] builds have a worker. *)
Lemma init_has_workers b ds n self :
  init b ds n = Return self -> 1 <= thread_pool_size self.
Proof.
  destruct n as [|n]; simpl; intros H; inversion H; subst; simpl. lia.
Qed.

(** With one worker suspended, [gather] resumes it when its retrieval
    ends. *)
Lemma single_worker_step ds fuel schedule i rest acc out :
  set_on_future (getitem ds (Single i)) = true ->
  gather ds (S fuel) schedule
    {| task_queue := rest; result_queue := acc; running := [(0, i)]; stdout := out |}
  = gather ds fuel (tl schedule)
      (worker_resume ds 0
         {| task_queue := rest; result_queue := acc; running := [(0, i)]; stdout := out |}).
Proof.
  intros Hf. cbn [gather]. unfold ready, resumable.
  cbn [running length seq filter nth_error]. rewrite Hf.
  cbn [length]. rewrite Nat.mod_1_r. reflexivity.
Qed.

Lemma gather_no_worker ds fuel schedule tq rq out :
  gather ds fuel schedule
    {| task_queue := tq; result_queue := rq; running := []; stdout := out |}
  = {| task_queue := tq; result_queue := rq; running := []; stdout := out |}.
Proof. destruct fuel; reflexivity. Qed.

(** A single worker that goes round its loop after each retrieval answers
    the indices in the order of the task queue and prints the exceptions
    in that order. *)
Lemma single_worker_pool ds fuel :
  forall schedule i rest acc out,
    length rest < fuel ->
    (forall j, In j (i :: rest) -> survived (getitem ds (Single j)) = true) ->
    gather ds fuel schedule
      {| task_queue := rest; result_queue := acc; running := [(0, i)]; stdout := out |}
    = {| task_queue := []; result_queue := acc ++ successes ds (i :: rest);
         running := [];
         stdout := out ++ map (fun e => (0, e)) (failures ds (i :: rest)) |}.
Proof.
  induction fuel as [|fuel IH]; intros schedule i rest acc out Hfuel Hall; [lia|].
  pose proof (Hall i (or_introl eq_refl)) as Hi.
  rewrite single_worker_step by (apply survived_set_on_future, Hi).
  unfold worker_resume. cbn [nth_error running remove_nth task_queue result_queue stdout].
  unfold successes, failures. cbn [flat_map].
  destruct (getitem ds (Single i)) as [v|[]]; simpl in Hi; try discriminate;
    unfold worker_loop; cbn [task_queue result_queue running stdout];
    (destruct rest as [|j rest];
     [rewrite gather_no_worker; cbn [flat_map map app]; rewrite ?app_nil_r; reflexivity
     |cbn [app]; rewrite IH by (simpl in Hfuel; try lia; intros k Hk; apply Hall; right; exact Hk);
      unfold successes, failures; cbn [flat_map app map];
      rewrite <- ?app_assoc; reflexivity]).
Qed.


(** The pool of a fetcher with one worker, when the worker goes round its
    loop after each retrieval of the batch. *)
Lemma single_worker_gathered self schedule batch :
  thread_pool_size self = 1 ->
  (forall i, In i batch -> survived (getitem (dataset self) (Single i)) = true) ->
  gathered self schedule batch
  = {| task_queue := [];
       result_queue := successes (dataset self) batch;
       running := [];
       stdout := map (fun e => (0, e)) (failures (dataset self) batch) |}.
Proof.
  intros HW Hall. unfold gathered. rewrite HW. cbn [create_tasks]. unfold worker_loop.
  cbn [task_queue result_queue running stdout].
  destruct batch as [|i rest]; [reflexivity|].
  cbn [app length]. rewrite single_worker_pool by (try lia; exact Hall). reflexivity.
Qed.

Lemma sorted_pairs (s : Z -> value) idx :
  Sorted Z.le idx ->
  Sorted (fun x y => (fst x <= fst y)%Z) (map (fun i => (i, s i)) idx).
Proof.
  induction 1 as [|i idx Hs IH Hhd]; simpl; constructor; [exact IH|].
  destruct Hhd; simpl; constructor. assumption.
Qed.

(** C3, amended: on a position batch in ascending order whose retrievals all
    succeed, the concurrent fetcher with one worker retrieves the positions
    one after the other, gathers the entries in the order of the batch and
    hands its collate function the [(position, sample)] tuples in that
    order; the indexed fetcher (batching enabled, with a bulk retrieval that
    answers the list of the samples when the dataset has one) hands the
    same collate function the list of the samples of these tuples, in the
    same order.  The concurrent fetcher returns [[1]] of what the collate
    function makes of the tuples, the indexed fetcher what it makes of the
    samples. *)
Theorem single_worker_agrees_on_ascending_batches b ds idx s schedule c :
  auto_collation b = true ->
  collate_fn b = Some c ->
  (forall f, getitems ds = Bulk f -> f (Batch idx) = Return (VList (map s idx))) ->
  Sorted Z.le idx ->
  (forall i, In i idx -> getitem ds (Single i) = Return (s i)) ->
  let async := {| base := b; dataset := ds; thread_pool_size := 1 |} in
  let sync := {| MapDatasetFetcher.base := b; MapDatasetFetcher.dataset := ds |} in
  let pairs := VList (map (fun i => VTuple [VInt i; s i]) idx) in
  let samples := VList (map s idx) in
  gathered async schedule idx
  = {| task_queue := []; result_queue := map (fun i => (i, s i)) idx;
       running := []; stdout := [] |} /\
  fetch schedule idx async
  = Some (match c pairs with
          | Return collated => subscript1 collated
          | Raise StopIteration =>
              Raise (Exception "RuntimeError: coroutine raised StopIteration")
          | Raise e => Raise e
          end, async, [Collate pairs (c pairs)]) /\
  MapDatasetFetcher.fetch (Batch idx) sync
  = (c samples, sync,
     match getitems ds with
     | Bulk _ => [GetItems (Batch idx) (Return samples)]
     | Absent | Falsy => map (fun i => GetItem (Single i) (Return (s i))) idx
     end ++ [Collate samples (c samples)]).
Proof.
  intros Hauto Hc Hbulk Hsorted Hs async sync pairs samples.
  destruct (successes_ok ds s idx Hs) as (Hsucc & Hfail & Hall).
  assert (Hpairs : tuples (map (fun i => (i, s i)) idx) = pairs).
  { unfold tuples, pairs. rewrite map_map. reflexivity. }
  split; [|split].
  - rewrite (single_worker_gathered async schedule idx eq_refl Hall).
    cbn [dataset async]. rewrite Hsucc, Hfail. reflexivity.
  - rewrite (fetch_sorted async schedule idx (le_n 1) Hall).
    cbn [dataset async]. rewrite Hsucc.
    rewrite (sort_by_index_sorted (sorted_pairs s Hsorted)).
    rewrite (collate_result_list_Some async _ Hc), Hpairs. reflexivity.
  - destruct (getitems ds) as [| |f] eqn:Eg.
    + rewrite (MapProperties.fetch_one_by_one sync idx s Hauto (or_introl Eg) Hs).
      unfold call_collate_fn. cbn [MapDatasetFetcher.base sync]. rewrite Hc. reflexivity.
    + rewrite (MapProperties.fetch_one_by_one sync idx s Hauto (or_intror Eg) Hs).
      unfold call_collate_fn. cbn [MapDatasetFetcher.base sync]. rewrite Hc. reflexivity.
    + unfold MapDatasetFetcher.fetch. rewrite bind_get.
      cbn [MapDatasetFetcher.base MapDatasetFetcher.dataset sync]. rewrite Hauto, Eg.
      unfold bind, perform. rewrite (Hbulk f eq_refl).
      unfold call_collate_fn, perform. cbn [MapDatasetFetcher.base]. rewrite Hc.
      reflexivity.
Qed.

(** Three workers whose retrievals complete in the order 1, 5, 3. *)
Lemma fetch_5_1_3_in_index_order_witness :
  let ds := {| getitem := fun k => match k with
                                   | Single i => Return (VInt (10 * i))
                                   | Batch _ => Raise TypeError
                                   end;
               getitems := Absent |} in
  let self := {| base := {| auto_collation := true; collate_fn := None; drop_last := false |};
                 dataset := ds; thread_pool_size := 3 |} in
  result_queue (gathered self [1; 0; 0] [5; 1; 3]%Z)
  = [(1, VInt 10); (5, VInt 50); (3, VInt 30)]%Z /\
  fetch [1; 0; 0] [5; 1; 3]%Z self
  = Some (Return (VList [VTuple [VInt 1; VInt 10]; VTuple [VInt 3; VInt 30];
                         VTuple [VInt 5; VInt 50]]), self, []).
Proof.
  intros ds self. split; [reflexivity|].
  refine (proj2 (proj2 (@fetch_5_1_3_in_index_order self [1; 0; 0]
                          (VInt 50) (VInt 10) (VInt 30) _ _ _ _)) _);
    [simpl; lia|reflexivity..].
Defined.



Lemma collate_receives_pairs_witness :
  let ds := {| getitem := fun k => match k with
                                   | Single i => Return (VInt (10 * i))
                                   | Batch _ => Raise TypeError
                                   end;
               getitems := Absent |} in
  let c := fun data => Return (VTuple [VStr "positions"; data]) in
  let self := {| base := {| auto_collation := true; collate_fn := Some c; drop_last := false |};
                 dataset := ds; thread_pool_size := 2 |} in
  let batch := VList [VTuple [VInt 1; VInt 10]; VTuple [VInt 3; VInt 30];
                      VTuple [VInt 5; VInt 50]] in
  exists collated,
    c batch = Return collated /\
    [Collate batch (Return (VTuple [VStr "positions"; batch]))]
    = [Collate batch (Return collated)] /\
    subscript1 collated = Return batch /\
    self = self /\
    forall first second,
      collated = VTuple [first; second] \/ collated = VList [first; second] ->
      batch = second.
Proof.
  intros ds c self batch.
  refine (proj1 (proj2 (proj2 (proj2 (proj2
            (@collate_receives_pairs self [1; 0; 0] [5; 1; 3]%Z)))))
            c batch self [Collate batch (Return (VTuple [VStr "positions"; batch]))] _ _).
  - reflexivity.
  - reflexivity.
Defined.

(** C5 as stated fails without a collate function: the call succeeds, no
    collate function is called and the list of tuples is returned. *)
Lemma collate_not_called_counterexample :
  let ds := {| getitem := fun k => match k with
                                   | Single i => Return (VInt (10 * i))
                                   | Batch _ => Raise TypeError
                                   end;
               getitems := Absent |} in
  let self := {| base := {| auto_collation := true; collate_fn := None; drop_last := false |};
                 dataset := ds; thread_pool_size := 2 |} in
  fetch [1; 0; 0] [5; 1; 3]%Z self
  = Some (Return (VList [VTuple [VInt 1; VInt 10]; VTuple [VInt 3; VInt 30];
                         VTuple [VInt 5; VInt 50]]), self, []) /\
  forall data answer r self' log,
    fetch [1; 0; 0] [5; 1; 3]%Z self = Some (r, self', log) ->
    ~ In (Collate data answer) log.
Proof.
  intros ds self. split; [reflexivity|].
  intros data answer r self' log H. injection H as _ _ <-. intros [].
Qed.

(** C3 as stated fails in three ways.  On positions [5, 1, 3] with the
    retrieval of 3 raising, the indexed fetcher raises the exception of the
    dataset and the concurrent fetcher with one worker returns the two other
    entries.  On positions [1, 3, 5] with every retrieval succeeding, a
    collate function that wraps what it is given answers the wrapped samples
    in the indexed fetcher, and in the concurrent fetcher the list of tuples
    it was given, which is [[1]] of the wrapping.  And on a dataset whose
    bulk retrieval answers something else than the list of the samples, the
    indexed fetcher hands on that answer and the concurrent fetcher, which
    retrieves position by position, the samples: with a collate function
    that answers the positions and the samples of a list of tuples, and
    any other list as it is, the two results differ there, and are the
    same on the dataset without the bulk retrieval. *)
Lemma single_worker_differs_counterexample :
  let sample := fun k => match k with
                         | Single i => Return (VInt (10 * i))
                         | Batch _ => Raise TypeError
                         end in
  let failing := {| getitem := fun k => match k with
                                        | Single 3 => Raise (Exception "unreadable")
                                        | _ => sample k
                                        end;
                    getitems := Absent |} in
  let total := {| getitem := sample; getitems := Absent |} in
  let bulk := {| getitem := sample;
                 getitems := Bulk (fun _ => Return (VList [VStr "bulk"])) |} in
  let wrap := fun data => Return (VTuple [VStr "batch"; data]) in
  let transpose := fun data =>
                     match data with
                     | VList ((VTuple [_; _] :: _) as l) =>
                         Return (VTuple [VList (map (fun v => match v with
                                                              | VTuple [x; _] => x
                                                              | _ => v
                                                              end) l);
                                         VList (map (fun v => match v with
                                                              | VTuple [_; y] => y
                                                              | _ => v
                                                              end) l)])
                     | _ => Return data
                     end in
  let b := fun c => {| auto_collation := true; collate_fn := Some c; drop_last := false |} in
  let async := fun c ds => {| base := b c; dataset := ds; thread_pool_size := 1 |} in
  let sync := fun c ds => {| MapDatasetFetcher.base := b c; MapDatasetFetcher.dataset := ds |} in
  (fst (fst (MapDatasetFetcher.fetch (Batch [5; 1; 3]%Z) (sync wrap failing)))
   = Raise (Exception "unreadable") /\
   fetch [] [5; 1; 3]%Z (async wrap failing)
   = Some (Return (VList [VTuple [VInt 1; VInt 10]; VTuple [VInt 5; VInt 50]]),
           async wrap failing,
           [Collate (VList [VTuple [VInt 1; VInt 10]; VTuple [VInt 5; VInt 50]])
              (Return (VTuple [VStr "batch";
                               VList [VTuple [VInt 1; VInt 10]; VTuple [VInt 5; VInt 50]]]))])) /\
  (fst (fst (MapDatasetFetcher.fetch (Batch [1; 3; 5]%Z) (sync wrap total)))
   = Return (VTuple [VStr "batch"; VList [VInt 10; VInt 30; VInt 50]]) /\
   option_map (fun r => fst (fst r)) (fetch [] [1; 3; 5]%Z (async wrap total))
   = Some (Return (VList [VTuple [VInt 1; VInt 10]; VTuple [VInt 3; VInt 30];
                          VTuple [VInt 5; VInt 50]]))) /\
  (fst (fst (MapDatasetFetcher.fetch (Batch [1; 3; 5]%Z) (sync transpose bulk)))
   = Return (VList [VStr "bulk"]) /\
   option_map (fun r => fst (fst r)) (fetch [] [1; 3; 5]%Z (async transpose bulk))
   = Some (Return (VList [VInt 10; VInt 30; VInt 50])) /\
   option_map (fun r => fst (fst r)) (fetch [] [1; 3; 5]%Z (async transpose total))
   = Some (fst (fst (MapDatasetFetcher.fetch (Batch [1; 3; 5]%Z) (sync transpose total))))).
Proof.
  intros sample failing total bulk wrap transpose b async sync. repeat split.
Qed.

(** Positions [1, 3, 5] and a collate function that answers the positions
    and the samples of a list of tuples, and on any other list the list
    itself with no positions. *)
Lemma single_worker_agrees_on_ascending_batches_witness :
  let ds := {| getitem := fun k => match k with
                                   | Single i => Return (VInt (10 * i))
                                   | Batch _ => Raise TypeError
                                   end;
               getitems := Absent |} in
  let left := fun v => match v with VTuple [x; _] => x | _ => v end in
  let right := fun v => match v with VTuple [_; y] => y | _ => v end in
  let c := fun data => match data with
                       | VList ((VTuple [_; _] :: _) as l) =>
                           Return (VTuple [VList (map left l); VList (map right l)])
                       | _ => Return data
                       end in
  let b := {| auto_collation := true; collate_fn := Some c; drop_last := false |} in
  let async := {| base := b; dataset := ds; thread_pool_size := 1 |} in
  let sync := {| MapDatasetFetcher.base := b; MapDatasetFetcher.dataset := ds |} in
  fetch [] [1; 3; 5]%Z async
  = Some (Return (VList [VInt 10; VInt 30; VInt 50]), async,
          [Collate (VList [VTuple [VInt 1; VInt 10]; VTuple [VInt 3; VInt 30];
                           VTuple [VInt 5; VInt 50]])
             (Return (VTuple [VList [VInt 1; VInt 3; VInt 5];
                              VList [VInt 10; VInt 30; VInt 50]]))]) /\
  MapDatasetFetcher.fetch (Batch [1; 3; 5]%Z) sync
  = (Return (VList [VInt 10; VInt 30; VInt 50]), sync,
     [GetItem (Single 1%Z) (Return (VInt 10)); GetItem (Single 3%Z) (Return (VInt 30));
      GetItem (Single 5%Z) (Return (VInt 50));
      Collate (VList [VInt 10; VInt 30; VInt 50])
        (Return (VList [VInt 10; VInt 30; VInt 50]))]).
Proof.
  intros ds left right c b async sync.
  refine (proj2 (@single_worker_agrees_on_ascending_batches b ds [1; 3; 5]%Z
                   (fun i => VInt (10 * i)) [] c _ _ _ _ _)).
  - reflexivity.
  - reflexivity.
  - intros f H. discriminate H.
  - repeat constructor; discriminate.
  - intros i _. reflexivity.
Defined.

End AsyncProperties.

(** A cursor whose third item cannot be read, and a dataset whose item 3
    cannot. *)
Lemma source_errors_propagate_witness :
  let next_ := fun n : nat =>
                 (if (n =? 2)%nat then Raise (Exception "unreadable")
                  else Return (VInt (Z.of_nat n)), S n) in
  let b := {| auto_collation := true; collate_fn := Some Return; drop_last := false |} in
  let ds := {| getitem := fun k => match k with
                                   | Single 3 => Raise (Exception "unreadable")
                                   | Single i => Return (VInt (10 * i))
                                   | Batch _ => Raise TypeError
                                   end;
               getitems := Absent |} in
  fst (fst (IterableDatasetFetcher.fetch next_ (Batch [0; 0; 0; 0]%Z)
              (IterableDatasetFetcher.init b 0)))
  = Raise (Exception "unreadable") /\
  fst (fst (MapDatasetFetcher.fetch (Batch [5; 1; 3]%Z)
              {| MapDatasetFetcher.base := b; MapDatasetFetcher.dataset := ds |}))
  = Raise (Exception "unreadable").
Proof.
  intros next_ b ds. split.
  - refine (proj1 source_errors_propagate nat next_ (Batch [0; 0; 0; 0]%Z)
              (IterableDatasetFetcher.init b 0) _
              (snd (fst (IterableDatasetFetcher.fetch next_ (Batch [0; 0; 0; 0]%Z)
                           (IterableDatasetFetcher.init b 0))))
              (snd (IterableDatasetFetcher.fetch next_ (Batch [0; 0; 0; 0]%Z)
                      (IterableDatasetFetcher.init b 0)))
              (Exception "unreadable") _ _ _).
    + reflexivity.
    + simpl. auto.
    + left. discriminate.
  - refine (proj2 source_errors_propagate (Batch [5; 1; 3]%Z)
              {| MapDatasetFetcher.base := b; MapDatasetFetcher.dataset := ds |} _
              {| MapDatasetFetcher.base := b; MapDatasetFetcher.dataset := ds |}
              [GetItem (Single 5%Z) (Return (VInt 50)); GetItem (Single 1%Z) (Return (VInt 10));
               GetItem (Single 3%Z) (Raise (Exception "unreadable"))]
              (Single 3%Z) (Exception "unreadable") _ _).
    + reflexivity.
    + left. simpl. auto.
Defined.

(** * Further properties *)

(** ** The sequential fetcher on a list *)

Module IterableOnLists.
Import IterableDatasetFetcher.

(** The loop on the iterator of a list: it takes the first items of the
    list, as many as there are positions, and sets [ended] when the list
    has fewer. *)
Lemma for_loop_on_list idx :
  forall data (self : t (list value)),
    for_loop list_iterator_next idx data self
    = (Return (data ++ firstn (length idx) (dataset_iter self)),
       {| base := base self;
          dataset_iter := skipn (length idx) (dataset_iter self);
          ended := ended self || (length (dataset_iter self) <? length idx)%nat |},
       map (fun v => Next (Return v)) (firstn (length idx) (dataset_iter self))
       ++ (if (length (dataset_iter self) <? length idx)%nat
           then [Next (Raise StopIteration)] else [])).
Proof.
  induction idx as [|p idx IH]; intros data self.
  - destruct self as [b items e]. simpl. unfold ret.
    rewrite app_nil_r, orb_false_r. reflexivity.
  - rewrite IterableProperties.for_loop_cons.
    destruct self as [b [|x items] e]; simpl.
    + rewrite app_nil_r, orb_true_r. reflexivity.
    + rewrite IH. simpl. rewrite <- app_assoc. reflexivity.
Qed.

(** The batched [fetch] on the iterator of a list, by what the loop took. *)
Lemma fetch_on_list idx (self : t (list value)) :
  ended self = false ->
  auto_collation (base self) = true ->
  let items := dataset_iter self in
  let taken := firstn (length idx) items in
  let short := (length items <? length idx)%nat in
  let self' := {| base := base self; dataset_iter := skipn (length idx) items;
                  ended := short |} in
  let calls := map (fun v => Next (Return v)) taken
               ++ (if short then [Next (Raise StopIteration)] else []) in
  fetch list_iterator_next (Batch idx) self
  = if (length taken =? 0)%nat || (drop_last (base self) && short)
    then (Raise StopIteration, self', calls)
    else match call_collate_fn (base self) (VList taken) self' with
         | (r, s, t) => (r, s, calls ++ t)
         end.
Proof.
  intros He Ha items taken short self' calls.
  unfold fetch. rewrite bind_get, He, Ha.
  unfold bind at 1 2. rewrite for_loop_on_list, He. simpl app. simpl orb.
  fold items taken short self' calls.
  assert (Hshort : (length taken <? length idx)%nat = short).
  { unfold taken, short. rewrite length_firstn.
    destruct (Nat.ltb_spec (length items) (length idx));
      destruct (Nat.ltb_spec (Nat.min (length idx) (length items)) (length idx));
      try reflexivity; lia. }
  change ([] ++ taken) with taken. rewrite Hshort.
  destruct ((length taken =? 0)%nat || (drop_last (base self) && short)).
  - unfold raise. rewrite app_nil_r. reflexivity.
  - unfold ret. rewrite app_nil_r.
    destruct (call_collate_fn (base self) (VList taken) self') as [[r s] t].
    reflexivity.
Qed.

(** X1: batching enabled, a list source with at least as many items left as
    the batch has positions (one at least): [fetch] takes exactly that many
    items from the front of the list, hands them in order to the collate
    function, leaves the rest of the list in the cursor and does not end
    the fetcher. *)
Theorem fetch_takes_a_full_batch idx (self : t (list value)) c :
  ended self = false ->
  auto_collation (base self) = true ->
  collate_fn (base self) = Some c ->
  idx <> [] ->
  length idx <= length (dataset_iter self) ->
  let taken := firstn (length idx) (dataset_iter self) in
  length taken = length idx /\
  fetch list_iterator_next (Batch idx) self
  = (c (VList taken),
     {| base := base self;
        dataset_iter := skipn (length idx) (dataset_iter self);
        ended := false |},
     map (fun v => Next (Return v)) taken ++ [Collate (VList taken) (c (VList taken))]).
Proof.
  intros He Ha Hc Hidx Hlen taken.
  assert (Htaken : length taken = length idx) by (apply firstn_length_le, Hlen).
  split; [exact Htaken|].
  rewrite (fetch_on_list idx self He Ha). fold taken. rewrite Htaken.
  assert (Hshort : (length (dataset_iter self) <? length idx)%nat = false)
    by (apply Nat.ltb_ge, Hlen).
  rewrite Hshort, andb_false_r, orb_false_r.
  destruct idx as [|p idx]; [congruence|]. simpl Nat.eqb. cbv iota.
  unfold call_collate_fn, perform. rewrite Hc, app_nil_r. reflexivity.
Qed.

(** X2: batching enabled and drop-last disabled, a list source with items
    left, fewer than the batch has positions: [fetch] hands all of them, in
    order, to the collate function, after one call to the cursor beyond
    the last item, and ends the fetcher. *)
Theorem fetch_keeps_a_short_batch idx (self : t (list value)) c :
  ended self = false ->
  auto_collation (base self) = true ->
  drop_last (base self) = false ->
  collate_fn (base self) = Some c ->
  dataset_iter self <> [] ->
  length (dataset_iter self) < length idx ->
  fetch list_iterator_next (Batch idx) self
  = (c (VList (dataset_iter self)),
     {| base := base self; dataset_iter := []; ended := true |},
     map (fun v => Next (Return v)) (dataset_iter self)
     ++ [Next (Raise StopIteration);
         Collate (VList (dataset_iter self)) (c (VList (dataset_iter self)))]).
Proof.
  intros He Ha Hd Hc Hitems Hlen.
  rewrite (fetch_on_list idx self He Ha), Hd.
  rewrite firstn_all2, skipn_all2 by lia.
  assert (Hshort : (length (dataset_iter self) <? length idx)%nat = true)
    by (apply Nat.ltb_lt, Hlen).
  rewrite Hshort. simpl andb. rewrite orb_false_r.
  destruct (dataset_iter self) as [|x items]; [congruence|]. simpl Nat.eqb. cbv iota.
  unfold call_collate_fn, perform. rewrite Hc, <- app_assoc. reflexivity.
Qed.

(** X3: batching enabled, a list source with fewer items left than the
    batch has positions, and drop-last enabled or no item left: [fetch]
    takes the items, signals exhaustion without a call to the collate
    function, and ends the fetcher, so that every later [fetch] signals
    exhaustion without a call to the cursor. *)
Theorem fetch_drops_a_short_batch idx (self : t (list value)) later :
  ended self = false ->
  auto_collation (base self) = true ->
  length (dataset_iter self) < length idx ->
  drop_last (base self) = true \/ dataset_iter self = [] ->
  let self' := {| base := base self; dataset_iter := []; ended := true |} in
  fetch list_iterator_next (Batch idx) self
  = (Raise StopIteration, self',
     map (fun v => Next (Return v)) (dataset_iter self) ++ [Next (Raise StopIteration)]) /\
  fetches list_iterator_next later self'
  = (map (fun _ => Raise StopIteration) later, self', []).
Proof.
  intros He Ha Hlen Hdrop self'. split.
  - rewrite (fetch_on_list idx self He Ha).
    rewrite firstn_all2, skipn_all2 by lia.
    assert (Hshort : (length (dataset_iter self) <? length idx)%nat = true)
      by (apply Nat.ltb_lt, Hlen).
    rewrite Hshort.
    assert (Hcond : (length (dataset_iter self) =? 0)%nat
                    || (drop_last (base self) && true) = true).
    { destruct Hdrop as [-> | ->]; [apply orb_true_r|reflexivity]. }
    rewrite Hcond. reflexivity.
  - apply IterableProperties.fetches_ended. reflexivity.
Qed.

(** The items that a log shows handed to the collate function. *)
Local Abbreviation collated log :=
  (flat_map (fun ev => match ev with
                       | Collate (VList l) _ => l
                       | _ => []
                       end) log).

Lemma firstn_plus A k :
  forall n (l : list A), firstn k l ++ firstn n (skipn k l) = firstn (k + n) l.
Proof.
  induction k as [|k IH]; intros n [|x l]; simpl; rewrite ?firstn_nil; try reflexivity.
  rewrite IH. reflexivity.
Qed.

Lemma collated_cursor_calls (items : list value) tail :
  (tail = [] \/ tail = [Next (Raise StopIteration)]) ->
  collated (map (fun v => Next (Return v)) items ++ tail) = [].
Proof.
  intros Htail. rewrite flat_map_app.
  assert (H : collated (map (fun v => Next (Return v)) items) = [])
    by (induction items as [|x items IH]; simpl; auto).
  rewrite H. destruct Htail as [-> | ->]; reflexivity.
Qed.

Lemma collated_by_fetches batches :
  forall (self : t (list value)) c rs self' log,
    auto_collation (base self) = true ->
    drop_last (base self) = false ->
    collate_fn (base self) = Some c ->
    fetches list_iterator_next (map Batch batches) self = (rs, self', log) ->
    collated log
    = if ended self then [] else firstn (length (concat batches)) (dataset_iter self).
Proof.
  induction batches as [|b rest IH]; intros self c rs self' log Ha Hd Hc H.
  - simpl in H. injection H as _ _ <-. destruct (ended self); reflexivity.
  - simpl in H. destruct (ended self) eqn:He.
    + rewrite (IterableProperties.fetch_ended list_iterator_next (Batch b) self He) in H.
      destruct (fetches list_iterator_next (map Batch rest) self) as [[rs1 s1] t1] eqn:E.
      injection H as <- <- <-. simpl.
      rewrite (IH self c rs1 s1 t1 Ha Hd Hc E), He. reflexivity.
    + rewrite (fetch_on_list b self He Ha), Hd in H. simpl andb in H.
      rewrite orb_false_r in H.
      set (items := dataset_iter self) in *.
      set (taken := firstn (length b) items) in *.
      set (short := (length items <? length b)%nat) in *.
      set (self1 := {| base := base self; dataset_iter := skipn (length b) items;
                       ended := short |}) in *.
      set (calls := map (fun v => Next (Return v)) taken
                    ++ (if short then [Next (Raise StopIteration)] else [])) in *.
      assert (Hcalls : collated calls = []).
      { apply collated_cursor_calls. destruct short; auto. }
      assert (Hrest : forall rs1 s1 t1,
                 fetches list_iterator_next (map Batch rest) self1 = (rs1, s1, t1) ->
                 taken ++ collated t1 = firstn (length (concat (b :: rest))) items).
      { intros rs1 s1 t1 E.
        rewrite (IH self1 c rs1 s1 t1 Ha Hd Hc E). simpl ended. simpl dataset_iter.
        rewrite concat_cons, length_app. unfold taken, short.
        destruct (Nat.ltb_spec (length items) (length b)).
        - rewrite !firstn_all2 by lia. apply app_nil_r.
        - apply firstn_plus. }
      destruct (length taken =? 0)%nat eqn:E0.
      * destruct (fetches list_iterator_next (map Batch rest) self1)
          as [[rs1 s1] t1] eqn:E.
        injection H as <- <- <-. rewrite flat_map_app, Hcalls. simpl app.
        rewrite <- (Hrest rs1 s1 t1 eq_refl).
        apply Nat.eqb_eq, length_zero_iff_nil in E0. rewrite E0. reflexivity.
      * unfold call_collate_fn, perform in H. rewrite Hc in H.
        destruct (fetches list_iterator_next (map Batch rest) self1)
          as [[rs1 s1] t1] eqn:E.
        injection H as <- <- <-. rewrite !flat_map_app, Hcalls. simpl.
        rewrite app_nil_r. apply (Hrest rs1 s1 t1 eq_refl).
Qed.

(** X4: batching enabled and drop-last disabled, a list source: over any run
    of consecutive batched [fetch] calls the items handed to the collate
    function, batch after batch, are the items of the source from its
    front, in order, none left out and none twice, as many as positions
    were asked for (all of them when more were asked). *)
Theorem fetches_hand_on_the_source_in_order batches (self : t (list value)) c :
  ended self = false ->
  auto_collation (base self) = true ->
  drop_last (base self) = false ->
  collate_fn (base self) = Some c ->
  collated (snd (fetches list_iterator_next (map Batch batches) self))
  = firstn (length (concat batches)) (dataset_iter self).
Proof.
  intros He Ha Hd Hc.
  destruct (fetches list_iterator_next (map Batch batches) self) as [[rs s1] t1] eqn:E.
  simpl snd. rewrite (collated_by_fetches batches self Ha Hd Hc E), He. reflexivity.
Qed.

(** Five items, two positions: the first two items are taken. *)
Lemma fetch_takes_a_full_batch_witness :
  let b := {| auto_collation := true; collate_fn := Some Return; drop_last := true |} in
  fetch list_iterator_next (Batch [9; 9]%Z)
        (init b [VInt 1; VInt 2; VInt 3; VInt 4; VInt 5])
  = (Return (VList [VInt 1; VInt 2]),
     {| base := b; dataset_iter := [VInt 3; VInt 4; VInt 5]; ended := false |},
     [Next (Return (VInt 1)); Next (Return (VInt 2));
      Collate (VList [VInt 1; VInt 2]) (Return (VList [VInt 1; VInt 2]))]).
Proof.
  intros b.
  refine (proj2 (@fetch_takes_a_full_batch [9; 9]%Z
                   (init b [VInt 1; VInt 2; VInt 3; VInt 4; VInt 5]) Return _ _ _ _ _)).
  - reflexivity.
  - reflexivity.
  - reflexivity.
  - discriminate.
  - simpl. lia.
Defined.

(** Two items, five positions, the short batch kept. *)
Lemma fetch_keeps_a_short_batch_witness :
  let b := {| auto_collation := true; collate_fn := Some Return; drop_last := false |} in
  fetch list_iterator_next (Batch [0; 1; 2; 3; 4]%Z) (init b [VInt 1; VInt 2])
  = (Return (VList [VInt 1; VInt 2]),
     {| base := b; dataset_iter := []; ended := true |},
     [Next (Return (VInt 1)); Next (Return (VInt 2)); Next (Raise StopIteration);
      Collate (VList [VInt 1; VInt 2]) (Return (VList [VInt 1; VInt 2]))]).
Proof.
  intros b.
  refine (@fetch_keeps_a_short_batch [0; 1; 2; 3; 4]%Z (init b [VInt 1; VInt 2])
            Return _ _ _ _ _ _).
  - reflexivity.
  - reflexivity.
  - reflexivity.
  - reflexivity.
  - discriminate.
  - simpl. lia.
Defined.

(** Two items, three positions, the short batch dropped. *)
Lemma fetch_drops_a_short_batch_witness :
  let b := {| auto_collation := true; collate_fn := Some Return; drop_last := true |} in
  fetch list_iterator_next (Batch [0; 1; 2]%Z) (init b [VInt 1; VInt 2])
  = (Raise StopIteration,
     {| base := b; dataset_iter := []; ended := true |},
     [Next (Return (VInt 1)); Next (Return (VInt 2)); Next (Raise StopIteration)]).
Proof.
  intros b.
  refine (proj1 (@fetch_drops_a_short_batch [0; 1; 2]%Z (init b [VInt 1; VInt 2])
                   [] _ _ _ _)).
  - reflexivity.
  - reflexivity.
  - simpl. lia.
  - left. reflexivity.
Defined.

(** Five items asked for in three batches of two. *)
Lemma fetches_hand_on_the_source_in_order_witness :
  let b := {| auto_collation := true; collate_fn := Some Return; drop_last := false |} in
  let items := [VInt 1; VInt 2; VInt 3; VInt 4; VInt 5] in
  collated (snd (fetches list_iterator_next
                   [Batch [0; 1]%Z; Batch [2; 3]%Z; Batch [4; 5]%Z] (init b items)))
  = items.
Proof.
  intros b items.
  refine (@fetches_hand_on_the_source_in_order [[0; 1]; [2; 3]; [4; 5]]%Z
            (init b items) Return _ _ _ _); reflexivity.
Defined.

End IterableOnLists.

(** ** The sequential fetcher on any cursor *)

Module IterableOnCursors.
Import IterableDatasetFetcher.

(** The number of calls to the cursor that a log shows. *)
Local Abbreviation cursor_calls log :=
  (length (filter (fun ev => match ev with Next _ => true | _ => false end) log)).

Section Cursor.
Variable Cursor : Type.
Variable next_ : Cursor -> outcome value * Cursor.

Local Abbreviation fetch := (fetch next_).
Local Abbreviation for_loop := (for_loop next_).
Local Abbreviation fetches := (fetches next_).

(** The loop calls the cursor until it has an item for every position or the
    cursor raises: it ends normally, or on [StopIteration] with [ended] set,
    or with another exception of the cursor. *)
Lemma for_loop_log idx :
  forall data self r self' log,
    for_loop idx data self = (r, self', log) ->
    exists items tail,
      log = map (fun v => Next (Return v)) items ++ tail /\
      length items + length tail <= length idx /\
      ((tail = [] /\ r = Return (data ++ items) /\ ended self' = ended self) \/
       (tail = [Next (Raise StopIteration)] /\ r = Return (data ++ items)
        /\ ended self' = true) \/
       (exists e, e <> StopIteration /\ tail = [Next (Raise e)] /\ r = Raise e
                  /\ ended self' = ended self)).
Proof.
  induction idx as [|p idx IH]; intros data self r self' log H.
  - inversion H; subst. exists [], []. rewrite !app_nil_r. simpl.
    split; [reflexivity|]. split; [lia|]. left. auto.
  - rewrite IterableProperties.for_loop_cons in H.
    destruct (next_ (dataset_iter self)) as [[x|e] it'].
    + destruct (for_loop idx (data ++ [x]) _) as [[r1 s1] t1] eqn:E.
      injection H as <- <- <-.
      destruct (IH _ _ _ _ _ E) as (items & tail & -> & Hlen & Hcases).
      exists (x :: items), tail. simpl. rewrite <- app_assoc in Hcases. simpl in Hcases.
      repeat split; [lia|exact Hcases].
    + assert (Hcase : forall e0 : exn,
                 e0 <> StopIteration ->
                 exists items tail,
                   [Next (Raise e0)] = map (fun v => Next (Return v)) items ++ tail /\
                   length items + length tail <= length (p :: idx) /\
                   ((tail = [] /\ @Raise (list value) e0 = Return (data ++ items)
                     /\ ended self = ended self) \/
                    (tail = [Next (Raise StopIteration)]
                     /\ @Raise (list value) e0 = Return (data ++ items)
                     /\ ended self = true) \/
                    (exists e, e <> StopIteration /\ tail = [Next (Raise e)]
                               /\ @Raise (list value) e0 = Raise e
                               /\ ended self = ended self))).
      { intros e0 He0. exists [], [Next (Raise e0)]. simpl.
        split; [reflexivity|]. split; [lia|]. right. right. exists e0. auto. }
      destruct e; injection H as <- <- <-; try (apply Hcase; discriminate).
      exists [], [Next (Raise StopIteration)]. simpl. rewrite app_nil_r.
      split; [reflexivity|]. split; [lia|]. right. left. auto.
Qed.

(** The parts of [fetch] on a fetcher that is not ended. *)
Lemma fetch_parts idx self r self' log :
  ended self = false ->
  fetch idx self = (r, self', log) ->
  exists r1 t1,
    (if auto_collation (base self) then
       match idx with
       | Batch l =>
           bind (for_loop l [])
                (fun data =>
                   if (length data =? 0)%nat
                      || (drop_last (base self) && (length data <? length l)%nat)
                   then raise StopIteration
                   else ret (VList data))
       | Single _ => raise TypeError
       end
     else next_dataset_iter next_) self = (r1, self', t1) /\
    ((exists e, r1 = Raise e /\ r = Raise e /\ log = t1) \/
     (exists data, r1 = Return data /\
                   ((collate_fn (base self) = None /\ r = Raise TypeError /\ log = t1) \/
                    (exists c, collate_fn (base self) = Some c /\ r = c data
                               /\ log = t1 ++ [Collate data r])))).
Proof.
  intros He H. unfold IterableDatasetFetcher.fetch in H.
  rewrite bind_get, He in H.
  apply bind_call_collate_fn in H.
  destruct H as (r1 & t1 & Hm & [(e & -> & -> & ->)|(data & tc & -> & -> & Hc & _)]).
  - exists (Raise e), t1. split; [exact Hm|]. left. eauto.
  - exists (Return data), (t1). split; [exact Hm|]. right. exists data.
    split; [reflexivity|].
    unfold call_collate_fn, perform, raise in Hc.
    destruct (collate_fn (base self)) as [c|]; injection Hc as <- <-.
    + right. exists c. auto.
    + left. rewrite app_nil_r. auto.
Qed.

Lemma not_in_returns (items : list value) x :
  ~ In (Next (Raise x)) (map (fun v => Next (Return v)) items).
Proof.
  intros H. apply in_map_iff in H. destruct H as (v & Hv & _). discriminate.
Qed.

(** The retrieval step of [fetch], before the collate call, on a fetcher
    that is not ended: the calls to the cursor stop at the first that
    raises, they are no more than the positions of the batch (one with
    batching disabled), and [ended] is set when and only when the batching
    loop met [StopIteration]. *)
Lemma retrieval_spec idx self r1 self' t1 :
  ended self = false ->
  (if auto_collation (base self) then
     match idx with
     | Batch l =>
         bind (for_loop l [])
              (fun data =>
                 if (length data =? 0)%nat
                    || (drop_last (base self) && (length data <? length l)%nat)
                 then raise StopIteration
                 else ret (VList data))
     | Single _ => raise TypeError
     end
   else next_dataset_iter next_) self = (r1, self', t1) ->
  base self' = base self /\
  exists items tail,
    t1 = map (fun v => Next (Return v)) items ++ tail /\
    length items + length tail
    <= (if auto_collation (base self)
        then match idx with Batch l => length l | Single _ => 0 end
        else 1) /\
    ((tail = [] /\ ended self' = false) \/
     (exists e, tail = [Next (Raise e)] /\
                (ended self' = true <->
                 auto_collation (base self) = true /\ e = StopIteration))).
Proof.
  intros He H. destruct (auto_collation (base self)) eqn:Ha.
  - destruct idx as [i|l].
    + injection H as <- <- <-. split; [reflexivity|]. exists [], []. simpl. auto.
    + unfold bind in H.
      destruct (for_loop l [] self) as [[r0 s0] t0] eqn:E.
      destruct (IterableProperties.for_loop_spec _ _ _ _ E) as [Hb _].
      destruct (for_loop_log _ _ _ E) as (items & tail & -> & Hlen & Hcases).
      assert (Hs : self' = s0 /\ t1 = map (fun v => Next (Return v)) items ++ tail).
      { destruct r0 as [data|e]; [|injection H as <- <- <-; auto].
        destruct ((length data =? 0)%nat
                  || (drop_last (base self) && (length data <? length l)%nat));
          injection H as <- <- <-; rewrite app_nil_r; auto. }
      destruct Hs as [-> ->]. split; [exact Hb|].
      exists items, tail. split; [reflexivity|]. split; [exact Hlen|].
      rewrite He in Hcases.
      destruct Hcases as [(-> & _ & Hended)|[(-> & _ & Hended)|(e & Hne & -> & _ & Hended)]].
      * left. auto.
      * right. exists StopIteration. split; [reflexivity|]. tauto.
      * right. exists e. split; [reflexivity|]. rewrite Hended.
        split; [discriminate|]. intros [_ Habs]. contradiction.
  - unfold next_dataset_iter in H.
    destruct (next_ (dataset_iter self)) as [[v|e] it']; injection H as <- <- <-;
      (split; [reflexivity|]); simpl; rewrite He.
    + exists [v], []. simpl. auto.
    + exists [], [Next (Raise e)]. simpl. split; [reflexivity|]. split; [lia|].
      right. exists e. split; [reflexivity|].
      split; [discriminate|]. intros [Habs _]. discriminate.
Qed.

(** X5: [fetch] keeps the configuration of the fetcher, and the fetcher is
    ended after [fetch] exactly when it was ended before or the cursor
    raised [StopIteration] in this call with batching enabled. *)
Theorem ended_records_the_end_of_data idx self r self' log :
  fetch idx self = (r, self', log) ->
  base self' = base self /\
  (ended self' = true <->
   ended self = true \/
   (auto_collation (base self) = true /\ In (Next (Raise StopIteration)) log)).
Proof.
  intros H. destruct (ended self) eqn:He.
  - rewrite (IterableProperties.fetch_ended next_ idx self He) in H.
    injection H as <- <- <-. split; [reflexivity|]. tauto.
  - destruct (@fetch_parts idx self r self' log He H) as (r1 & t1 & Hm & Hlog).
    destruct (@retrieval_spec idx self r1 self' t1 He Hm) as (Hb & items & tail & -> & _ & Hcases).
    split; [exact Hb|].
    assert (Hin : In (Next (Raise StopIteration)) log <-> tail = [Next (Raise StopIteration)]).
    { assert (Hin1 : In (Next (Raise StopIteration))
                        (map (fun v => Next (Return v)) items ++ tail)
                     <-> tail = [Next (Raise StopIteration)]).
      { rewrite in_app_iff. split.
        - intros [Habs|Hin]; [exfalso; eapply not_in_returns; eauto|].
          destruct Hcases as [[-> _]|(e & -> & _)]; [destruct Hin|].
          destruct Hin as [Hin|[]]. injection Hin as ->. reflexivity.
        - intros ->. right. left. reflexivity. }
      rewrite <- Hin1.
      destruct Hlog as [(e & _ & _ & ->)|(data & _ & [(_ & _ & ->)|(c & _ & _ & ->)])];
        try reflexivity.
      rewrite (in_app_iff _ [Collate data r]). simpl. split; [|auto].
      intros [Hin|[Habs|[]]]; [exact Hin|discriminate]. }
    rewrite Hin.
    destruct Hcases as [[-> Hended]|(e & -> & Hended)].
    + rewrite Hended. split; [discriminate|]. intros [Habs|[_ Habs]]; discriminate.
    + rewrite Hended. split.
      * intros [Ha ->]. auto.
      * intros [Habs|[Ha Heq]]; [discriminate|]. injection Heq as ->. auto.
Qed.

(** X6: the calls that one [fetch] makes: calls to the cursor that answer
    an item, then at most one call to the cursor that raises, then at most
    one call to the collate function, whose answer is the outcome of
    [fetch]; the calls to the cursor are no more than the positions of the
    batch, and no more than one with batching disabled. *)
Theorem fetch_log_shape idx self r self' log :
  fetch idx self = (r, self', log) ->
  exists items tail coll,
    log = map (fun v => Next (Return v)) items ++ tail ++ coll /\
    (tail = [] \/ exists e, tail = [Next (Raise e)]) /\
    (coll = [] \/ exists data, coll = [Collate data r]) /\
    length items + length tail
    <= (if auto_collation (base self)
        then match idx with Batch l => length l | Single _ => 0 end
        else 1).
Proof.
  intros H. destruct (ended self) eqn:He.
  - rewrite (IterableProperties.fetch_ended next_ idx self He) in H.
    injection H as <- <- <-. exists [], [], []. simpl.
    repeat split; auto. lia.
  - destruct (@fetch_parts idx self r self' log He H) as (r1 & t1 & Hm & Hlog).
    destruct (@retrieval_spec idx self r1 self' t1 He Hm) as (_ & items & tail & -> & Hlen & Hcases).
    assert (Htail : tail = [] \/ exists e, tail = [Next (Raise e)]).
    { destruct Hcases as [[-> _]|(e & -> & _)]; eauto. }
    destruct Hlog as [(e & _ & _ & ->)|(data & _ & [(_ & _ & ->)|(c & _ & _ & ->)])].
    + exists items, tail, []. rewrite app_nil_r. auto.
    + exists items, tail, []. rewrite app_nil_r. auto.
    + exists items, tail, [Collate data r]. rewrite <- app_assoc.
      repeat split; eauto.
Qed.

(** With batching disabled one [fetch] calls the cursor once and leaves the
    fetcher not ended. *)
Lemma unbatched_fetch_spec idx self r self' log :
  auto_collation (base self) = false ->
  ended self = false ->
  fetch idx self = (r, self', log) ->
  base self' = base self /\ ended self' = false /\ cursor_calls log = 1.
Proof.
  intros Ha He H.
  destruct (@fetch_parts idx self r self' log He H) as (r1 & t1 & Hm & Hlog).
  rewrite Ha in Hm. unfold next_dataset_iter in Hm.
  assert (Ht1 : base self' = base self /\ ended self' = false /\ cursor_calls t1 = 1).
  { destruct (next_ (dataset_iter self)) as [r0 it'].
    injection Hm as <- <- <-. simpl. auto. }
  destruct Ht1 as (Hb & Hended & Hcalls). split; [exact Hb|]. split; [exact Hended|].
  destruct Hlog as [(e & _ & _ & ->)|(data & _ & [(_ & _ & ->)|(c & _ & _ & ->)])];
    try exact Hcalls.
  rewrite filter_app, length_app, Hcalls. reflexivity.
Qed.

(** X7: with batching disabled a fetcher that is not ended never becomes
    ended: over any run of [fetch] calls, whatever the indices and whatever
    the cursor answers, the fetcher stays not ended and every call makes
    exactly one call to the cursor. *)
Theorem unbatched_fetches_always_call_the_cursor indices :
  forall self rs self' log,
    auto_collation (base self) = false ->
    ended self = false ->
    fetches indices self = (rs, self', log) ->
    ended self' = false /\ cursor_calls log = length indices.
Proof.
  induction indices as [|i rest IH]; intros self rs self' log Ha He H; simpl in H.
  - injection H as _ <- <-. auto.
  - destruct (fetch i self) as [[r1 s1] t1] eqn:E1.
    destruct (fetches rest s1) as [[rs2 s2] t2] eqn:E2.
    injection H as _ <- <-.
    destruct (@unbatched_fetch_spec i self r1 s1 t1 Ha He E1) as (Hb & He1 & Hc1).
    rewrite <- Hb in Ha.
    destruct (IH s1 rs2 s2 t2 Ha He1 E2) as [He2 Hc2].
    split; [exact He2|].
    rewrite filter_app, length_app, Hc1, Hc2. reflexivity.
Qed.
End Cursor.

(** One item asked for two: the cursor raises [StopIteration] in the call
    and the fetcher is ended. *)
Lemma ended_records_the_end_of_data_witness :
  let b := {| auto_collation := true; collate_fn := Some Return; drop_last := false |} in
  let self' := {| base := b; dataset_iter := ([] : list value); ended := true |} in
  ended (snd (fst (fetch list_iterator_next (Batch [0; 0]%Z) (init b [VInt 1])))) = true.
Proof.
  intros b self'.
  refine (proj2 (proj2 (@ended_records_the_end_of_data _ list_iterator_next
                          (Batch [0; 0]%Z) (init b [VInt 1])
                          (Return (VList [VInt 1])) self'
                          [Next (Return (VInt 1)); Next (Raise StopIteration);
                           Collate (VList [VInt 1]) (Return (VList [VInt 1]))] _)) _).
  - reflexivity.
  - right. split; [reflexivity|]. simpl. auto.
Defined.

Lemma fetch_log_shape_witness :
  let b := {| auto_collation := true; collate_fn := Some Return; drop_last := false |} in
  let log := [Next (Return (VInt 1)); Next (Raise StopIteration);
              Collate (VList [VInt 1]) (Return (VList [VInt 1]))] in
  exists items tail coll,
    log = map (fun v => Next (Return v)) items ++ tail ++ coll /\
    (tail = [] \/ exists e, tail = [Next (Raise e)]) /\
    (coll = [] \/ exists data, coll = [Collate data (Return (VList [VInt 1]))]) /\
    length items + length tail <= 2.
Proof.
  intros b log.
  refine (@fetch_log_shape _ list_iterator_next (Batch [0; 0]%Z) (init b [VInt 1])
            (Return (VList [VInt 1]))
            {| base := b; dataset_iter := []; ended := true |} log _).
  reflexivity.
Defined.

(** Three calls on an empty source with batching disabled: three calls to
    the cursor, and the fetcher is not ended. *)
Lemma unbatched_fetches_always_call_the_cursor_witness :
  let b := {| auto_collation := false; collate_fn := Some Return; drop_last := false |} in
  let self := init b ([] : list value) in
  ended (snd (fst (fetches list_iterator_next
                     [Single 0%Z; Single 1%Z; Batch [2%Z]] self))) = false /\
  cursor_calls (snd (fetches list_iterator_next
                       [Single 0%Z; Single 1%Z; Batch [2%Z]] self)) = 3.
Proof.
  intros b self.
  refine (@unbatched_fetches_always_call_the_cursor _ list_iterator_next
            [Single 0%Z; Single 1%Z; Batch [2%Z]] self
            [Raise StopIteration; Raise StopIteration; Raise StopIteration] self
            [Next (Raise StopIteration); Next (Raise StopIteration);
             Next (Raise StopIteration)] _ _ _); reflexivity.
Defined.

End IterableOnCursors.

(** ** The indexed fetcher, further *)

Module MapCoverage.
Import MapDatasetFetcher.

(** The comprehension stops at the first retrieval that raises. *)
Lemma comprehension_fails ds s before p after e :
  forall self,
    (forall i, In i before -> getitem ds (Single i) = Return (s i)) ->
    getitem ds (Single p) = Raise e ->
    comprehension ds (before ++ p :: after) self
    = (Raise e, self,
       map (fun i => GetItem (Single i) (Return (s i))) before
       ++ [GetItem (Single p) (Raise e)]).
Proof.
  induction before as [|i before IH]; intros self Hs Hp; simpl; unfold bind, perform.
  - rewrite Hp. reflexivity.
  - rewrite (Hs i (or_introl eq_refl)).
    rewrite (IH self (fun j Hj => Hs j (or_intror Hj)) Hp). reflexivity.
Qed.

(** The calls of the comprehension are the retrievals of the first
    positions of the list, in order. *)
Lemma comprehension_calls ds idx :
  forall self r self' log,
    comprehension ds idx self = (r, self', log) ->
    exists n, log = map (fun i => GetItem (Single i) (getitem ds (Single i))) (firstn n idx).
Proof.
  induction idx as [|i idx IH]; intros self r self' log H; simpl in H.
  - injection H as <- <- <-. exists 0. reflexivity.
  - unfold bind, perform in H.
    destruct (getitem ds (Single i)) as [v|e] eqn:Ei.
    + destruct (comprehension ds idx self) as [[r1 s1] t1] eqn:Ec.
      destruct (IH _ _ _ _ Ec) as [n ->].
      assert (Hlog : log = GetItem (Single i) (Return v)
                           :: map (fun i => GetItem (Single i) (getitem ds (Single i)))
                                  (firstn n idx)).
      { destruct r1; injection H as <- <- <-; rewrite ?app_nil_r; reflexivity. }
      exists (S n). simpl. rewrite Ei. exact Hlog.
    + injection H as <- <- <-. exists 1. simpl. rewrite Ei. reflexivity.
Qed.

(** X8: batching enabled, a dataset without bulk retrieval: when the
    retrieval of a position of the batch raises, those before it having
    succeeded, [fetch] raises that exception after the retrievals up to
    that position, in order; the positions after it are not retrieved and
    the collate function is not called. *)
Theorem fetch_stops_at_the_first_failure self before p after e s :
  auto_collation (base self) = true ->
  getitems (dataset self) = Absent \/ getitems (dataset self) = Falsy ->
  (forall i, In i before -> getitem (dataset self) (Single i) = Return (s i)) ->
  getitem (dataset self) (Single p) = Raise e ->
  fetch (Batch (before ++ p :: after)) self
  = (Raise e, self,
     map (fun i => GetItem (Single i) (Return (s i))) before
     ++ [GetItem (Single p) (Raise e)]).
Proof.
  intros Ha Hno Hs Hp. unfold fetch. rewrite bind_get, Ha.
  assert (Hcomp :
      bind (bind (comprehension (dataset self) (before ++ p :: after))
                 (fun xs => ret (VList xs)))
           (call_collate_fn (base self)) self
      = (Raise e, self,
         map (fun i => GetItem (Single i) (Return (s i))) before
         ++ [GetItem (Single p) (Raise e)])).
  { unfold bind at 1 2. rewrite (comprehension_fails _ s before p after self Hs Hp).
    reflexivity. }
  destruct Hno as [-> | ->]; exact Hcomp.
Qed.

(** X9: batching enabled: on a dataset whose bulk retrieval answers the list
    of the samples that retrieval position by position gives, [fetch] has
    the same outcome with the bulk retrieval as without it: what the
    collate function makes of that list. *)
Theorem bulk_and_one_by_one_agree b bulk plain f s idx :
  auto_collation b = true ->
  getitems bulk = Bulk f ->
  getitems plain = Absent \/ getitems plain = Falsy ->
  f (Batch idx) = Return (VList (map s idx)) ->
  (forall i, In i idx -> getitem plain (Single i) = Return (s i)) ->
  fst (fst (fetch (Batch idx) {| base := b; dataset := bulk |}))
  = fst (fst (fetch (Batch idx) {| base := b; dataset := plain |})) /\
  fst (fst (fetch (Batch idx) {| base := b; dataset := bulk |}))
  = match collate_fn b with
    | Some c => c (VList (map s idx))
    | None => Raise TypeError
    end.
Proof.
  intros Ha Hf Hno Hbulk Hs.
  assert (Hplain : fst (fst (fetch (Batch idx) {| base := b; dataset := plain |}))
                   = match collate_fn b with
                     | Some c => c (VList (map s idx))
                     | None => Raise TypeError
                     end).
  { rewrite (MapProperties.fetch_one_by_one {| base := b; dataset := plain |} idx s Ha Hno Hs).
    unfold call_collate_fn, perform, raise. cbn [base].
    destruct (collate_fn b); reflexivity. }
  assert (Hb : fst (fst (fetch (Batch idx) {| base := b; dataset := bulk |}))
               = match collate_fn b with
                 | Some c => c (VList (map s idx))
                 | None => Raise TypeError
                 end).
  { unfold fetch. rewrite bind_get. cbn [base dataset]. rewrite Ha, Hf.
    unfold bind, perform. rewrite Hbulk.
    unfold call_collate_fn, perform, raise. cbn [base].
    destruct (collate_fn b); reflexivity. }
  rewrite Hplain. auto.
Qed.

(** X10: the calls that one [fetch] makes, and nothing else: with batching
    enabled and bulk retrieval one call of [__getitems__] on the index as
    given; with batching enabled and no bulk retrieval the retrievals of
    the first positions of the batch, one each, in order; with batching
    disabled one call of [__getitem__] on the index as given, whether or
    not the dataset has bulk retrieval; then at most one call to the collate
    function, whose answer is the outcome of [fetch].  The fetcher is left
    as it is. *)
Theorem fetch_calls idx self r self' log :
  fetch idx self = (r, self', log) ->
  self' = self /\
  exists n coll,
    log = (if auto_collation (base self) then
             match getitems (dataset self) with
             | Bulk f => [GetItems idx (f idx)]
             | Absent | Falsy =>
                 match idx with
                 | Batch l =>
                     map (fun i => GetItem (Single i) (getitem (dataset self) (Single i)))
                         (firstn n l)
                 | Single _ => []
                 end
             end
           else [GetItem idx (getitem (dataset self) idx)]) ++ coll /\
    (coll = [] \/ exists data, coll = [Collate data r]).
Proof.
  intros H. unfold fetch in H. rewrite bind_get in H.
  apply bind_call_collate_fn in H. destruct H as (r1 & t1 & Hm & Hlog).
  assert (Hcoll : exists coll, log = t1 ++ coll
                               /\ (coll = [] \/ exists data, coll = [Collate data r])).
  { destruct Hlog as [(e & _ & _ & ->)|(data & tc & _ & -> & Hc & _)].
    - exists []. rewrite app_nil_r. auto.
    - exists tc. split; [reflexivity|].
      unfold call_collate_fn, perform, raise in Hc.
      destruct (collate_fn (base self)); injection Hc as <- <-; eauto. }
  destruct Hcoll as (coll & -> & Hcoll).
  destruct (MapProperties.retrieval_raise _ _ Hm) as [-> _].
  split; [reflexivity|].
  assert (Hcomp : forall l,
             bind (comprehension (dataset self) l) (fun xs => ret (VList xs)) self
             = (r1, self, t1) ->
             exists n, t1 = map (fun i => GetItem (Single i)
                                            (getitem (dataset self) (Single i)))
                                (firstn n l)).
  { intros l Hl. unfold bind, ret in Hl.
    destruct (comprehension (dataset self) l self) as [[r0 s0] t0] eqn:Ec.
    destruct (comprehension_calls _ _ _ Ec) as [n ->]. exists n.
    destruct r0; injection Hl as <- <- <-; rewrite ?app_nil_r; reflexivity. }
  destruct (auto_collation (base self)).
  - destruct (getitems (dataset self)) as [| |f].
    1,2: destruct idx as [i|l];
      [injection Hm as <- <-; exists 0, coll; auto
      |destruct (Hcomp l Hm) as [n ->]; exists n, coll; auto].
    injection Hm as <- <-. exists 0, coll. auto.
  - injection Hm as <- <-. exists 0, coll. auto.
Qed.

(** Positions [5, 1, 3, 7], the retrieval of 3 failing: 7 is not
    retrieved. *)
Lemma fetch_stops_at_the_first_failure_witness :
  let ds := {| getitem := fun k => match k with
                                   | Single 3 => Raise (Exception "unreadable")
                                   | Single i => Return (VInt (10 * i))
                                   | Batch _ => Raise TypeError
                                   end;
               getitems := Absent |} in
  let self := {| base := {| auto_collation := true; collate_fn := Some Return;
                            drop_last := false |};
                 dataset := ds |} in
  fetch (Batch [5; 1; 3; 7]%Z) self
  = (Raise (Exception "unreadable"), self,
     [GetItem (Single 5%Z) (Return (VInt 50)); GetItem (Single 1%Z) (Return (VInt 10));
      GetItem (Single 3%Z) (Raise (Exception "unreadable"))]).
Proof.
  intros ds self.
  refine (@fetch_stops_at_the_first_failure self [5; 1]%Z 3%Z [7%Z]
            (Exception "unreadable") (fun i => VInt (10 * i)) _ _ _ _).
  - reflexivity.
  - left. reflexivity.
  - intros i [<-|[<-|[]]]; reflexivity.
  - reflexivity.
Defined.

Lemma bulk_and_one_by_one_agree_witness :
  let sample := fun k => match k with
                         | Single i => Return (VInt (10 * i))
                         | Batch l => Return (VList (map (fun i => VInt (10 * i)) l))
                         end in
  let b := {| auto_collation := true; collate_fn := Some Return; drop_last := false |} in
  let bulk := {| getitem := sample; getitems := Bulk sample |} in
  let plain := {| getitem := sample; getitems := Absent |} in
  fst (fst (fetch (Batch [2; 0; 1]%Z) {| base := b; dataset := bulk |}))
  = fst (fst (fetch (Batch [2; 0; 1]%Z) {| base := b; dataset := plain |})).
Proof.
  intros sample b bulk plain.
  refine (proj1 (@bulk_and_one_by_one_agree b bulk plain sample
                   (fun i => VInt (10 * i)) [2; 0; 1]%Z _ _ _ _ _)).
  - reflexivity.
  - reflexivity.
  - left. reflexivity.
  - reflexivity.
  - intros i _. reflexivity.
Defined.

(** Batching disabled on a dataset with bulk retrieval: the batch is the key
    of one [__getitem__] call. *)
Lemma fetch_calls_witness :
  let sample := fun k => match k with
                         | Single i => Return (VInt (10 * i))
                         | Batch l => Return (VList (map (fun i => VInt (10 * i)) l))
                         end in
  let self := {| base := {| auto_collation := false; collate_fn := Some Return;
                            drop_last := false |};
                 dataset := {| getitem := sample; getitems := Bulk sample |} |} in
  let answer := Return (VList [VInt 20; VInt 0]) in
  exists (n : nat) coll,
    [GetItem (Batch [2; 0]%Z) answer; Collate (VList [VInt 20; VInt 0]) answer]
    = [GetItem (Batch [2; 0]%Z) answer] ++ coll /\
    (coll = [] \/ exists data, coll = [Collate data answer]).
Proof.
  intros sample self answer.
  refine (proj2 (@fetch_calls (Batch [2; 0]%Z) self answer self
                   [GetItem (Batch [2; 0]%Z) answer;
                    Collate (VList [VInt 20; VInt 0]) answer] _)).
  reflexivity.
Defined.

End MapCoverage.

(** ** The concurrent fetcher, further *)

Module AsyncCoverage.
Import AsyncMapDatasetFetcher.

Local Abbreviation started self batch :=
  (create_tasks 0 (thread_pool_size self)
     {| task_queue := batch; result_queue := []; running := []; stdout := [] |}).

Lemma in_failures ds e l :
  In e (failures ds l) <-> exists i, In i l /\ getitem ds (Single i) = Raise e.
Proof.
  unfold failures. rewrite in_flat_map. split.
  - intros (i & Hi & Hin). exists i. split; [exact Hi|].
    destruct (getitem ds (Single i)); [destruct Hin|].
    destruct Hin as [->|[]]. reflexivity.
  - intros (i & Hi & He). exists i. rewrite He. simpl. auto.
Qed.

Lemma successes_failures_length ds l :
  length (successes ds l) + length (failures ds l) = length l.
Proof.
  unfold successes, failures.
  induction l as [|i l IH]; simpl; [reflexivity|].
  rewrite !length_app. destruct (getitem ds (Single i)); simpl; lia.
Qed.

(** X11: when every retrieval of the batch returns or raises an exception
    that [except Exception] catches, other than [StopIteration], then under
    every schedule the tasks are gathered with no worker left and the task
    queue empty, and every index of the batch has been answered once: it
    has its entry on the result queue when its retrieval returned and its
    exception printed when it raised, so the entries and the printed
    exceptions are as many as the batch is long. *)
Theorem every_index_is_answered_once self schedule batch :
  1 <= thread_pool_size self ->
  (forall i, In i batch -> survived (getitem (dataset self) (Single i)) = true) ->
  let st := gathered self schedule batch in
  running st = [] /\ task_queue st = [] /\
  length (result_queue st) + length (stdout st) = length batch /\
  (forall i v, In (i, v) (result_queue st)
               <-> In i batch /\ getitem (dataset self) (Single i) = Return v) /\
  (forall e, In e (map snd (stdout st))
             <-> exists i, In i batch /\ getitem (dataset self) (Single i) = Raise e).
Proof.
  intros HW Hall st.
  destruct (AsyncProperties.gathered_spec self schedule batch HW Hall)
    as (Hr & Hq & Hps & Hpf).
  fold st in Hr, Hq, Hps, Hpf.
  split; [exact Hr|]. split; [exact Hq|]. split; [|split].
  - rewrite (Permutation_length Hps), <- (length_map snd (stdout st)),
      (Permutation_length Hpf).
    apply successes_failures_length.
  - intros i v. rewrite <- (AsyncProperties.in_successes (dataset self) i v batch).
    split; apply Permutation_in; [exact Hps|apply Permutation_sym, Hps].
  - intros e. rewrite <- in_failures.
    split; apply Permutation_in; [exact Hpf|apply Permutation_sym, Hpf].
Qed.

(** The end of [initiate_fetch_tasks] looks at the collate function of the
    fetcher and at nothing else of it. *)
Lemma collate_result_list_ext self1 self2 result_list :
  collate_fn (base self1) = collate_fn (base self2) ->
  fst (fst (collate_result_list result_list self1))
  = fst (fst (collate_result_list result_list self2)) /\
  snd (collate_result_list result_list self1)
  = snd (collate_result_list result_list self2).
Proof.
  intros Hc. destruct (collate_fn (base self2)) as [c|] eqn:E2.
  - rewrite (AsyncProperties.collate_result_list_Some self1 result_list Hc),
      (AsyncProperties.collate_result_list_Some self2 result_list E2). auto.
  - rewrite (AsyncProperties.collate_result_list_None self1 result_list Hc),
      (AsyncProperties.collate_result_list_None self2 result_list E2). auto.
Qed.

(** X12: for a dataset that answers an index in one way (the retrieval is
    a function of the index) and whose retrievals of the batch return or
    raise exceptions that [except Exception] catches, other than
    [StopIteration], [fetch] returns, and its outcome and its call of the
    collate function depend neither on the order in which the retrievals
    complete nor on the number of workers: two fetchers on the dataset with
    the same collate function, each with one worker at least, answer the
    same under any two schedules. *)
Theorem fetch_is_independent_of_the_schedule b ds n1 n2 schedule1 schedule2 batch :
  1 <= n1 ->
  1 <= n2 ->
  (forall i, In i batch -> survived (getitem ds (Single i)) = true) ->
  let self1 := {| base := b; dataset := ds; thread_pool_size := n1 |} in
  let self2 := {| base := b; dataset := ds; thread_pool_size := n2 |} in
  exists out log,
    fetch schedule1 batch self1 = Some (out, self1, log) /\
    fetch schedule2 batch self2 = Some (out, self2, log).
Proof.
  intros H1 H2 Hall self1 self2.
  rewrite (AsyncProperties.fetch_sorted self1 schedule1 batch H1 Hall).
  rewrite (AsyncProperties.fetch_sorted self2 schedule2 batch H2 Hall).
  cbn [dataset self1 self2].
  destruct (collate_fn b) as [c|] eqn:Hc.
  - rewrite (@AsyncProperties.collate_result_list_Some self1 _ c Hc),
      (@AsyncProperties.collate_result_list_Some self2 _ c Hc). eauto.
  - rewrite (@AsyncProperties.collate_result_list_None self1 _ Hc),
      (@AsyncProperties.collate_result_list_None self2 _ Hc). eauto.
Qed.

(** X13: under every schedule the list that [initiate_fetch_tasks] has
    after the sort is in ascending order of the indices and holds the
    entries of the result queue, each as often as it is there.  When every
    retrieval of the batch returns or raises an exception that
    [except Exception] catches, other than [StopIteration], it holds the
    entries of the indices whose retrieval returned, each as often as the
    index is in the batch, and [fetch] returns and hands it on. *)
Theorem result_list_is_sorted_by_index self schedule batch :
  let result_list := sort_by_index (result_queue (gathered self schedule batch)) in
  Sorted (fun a b => (fst a <= fst b)%Z) result_list /\
  Permutation result_list (result_queue (gathered self schedule batch)) /\
  (1 <= thread_pool_size self ->
   (forall i, In i batch -> survived (getitem (dataset self) (Single i)) = true) ->
   Permutation result_list (successes (dataset self) batch) /\
   fetch schedule batch self = Some (collate_result_list result_list self)).
Proof.
  intros result_list.
  split; [apply AsyncProperties.sort_by_index_is_sorted|].
  split; [apply AsyncProperties.sort_by_index_perm|].
  intros HW Hall.
  destruct (AsyncProperties.gathered_spec self schedule batch HW Hall) as (Hr & _ & Hps & _).
  split.
  - unfold result_list. rewrite AsyncProperties.sort_by_index_perm. exact Hps.
  - apply AsyncProperties.fetch_returns, Hr.
Qed.

(** The workers that are created take the first indices of the task queue,
    one each in the order of their creation, and suspend; those for which no
    index is left return. *)
Lemma create_tasks_takes n :
  forall w st,
    create_tasks w n st
    = {| task_queue := skipn n (task_queue st);
         result_queue := result_queue st;
         running := running st ++ combine (seq w n) (task_queue st);
         stdout := stdout st |}.
Proof.
  induction n as [|n IH]; intros w [tq rq run out]; simpl.
  - rewrite app_nil_r. reflexivity.
  - rewrite IH. unfold worker_loop. simpl.
    destruct tq as [|i rest]; simpl.
    + rewrite skipn_nil. destruct (seq (S w) n); reflexivity.
    + rewrite <- app_assoc. reflexivity.
Qed.

(** X14: [initiate_fetch_tasks] creates one worker for each slot of the
    pool; worker [i] takes the [i]-th index of the batch, in the order of
    the batch, and the indices beyond the number of workers wait in the
    task queue; with more workers than indices the workers in excess take
    nothing.  Nothing is answered or printed yet. *)
Theorem workers_take_the_first_indices self batch :
  let st := create_tasks 0 (thread_pool_size self)
              {| task_queue := batch; result_queue := []; running := []; stdout := [] |} in
  st = {| task_queue := skipn (thread_pool_size self) batch;
          result_queue := [];
          running := combine (seq 0 (thread_pool_size self)) batch;
          stdout := [] |} /\
  length (running st) = Nat.min (thread_pool_size self) (length batch).
Proof.
  intros st. unfold st.
  rewrite create_tasks_takes. simpl. split; [reflexivity|].
  rewrite length_combine, length_seq. reflexivity.
Qed.

(** X15: on an empty batch no retrieval is made, whatever the number of
    workers and the schedule, and [fetch] returns: the empty list goes to
    the end of [initiate_fetch_tasks], where the collate function is called
    on it and [[1]] of its answer is the outcome, or its exception, a
    [StopIteration] as the [RuntimeError] of the coroutine; the empty list
    is returned when there is no collate function. *)
Theorem fetch_of_an_empty_batch self schedule :
  gathered self schedule []
  = {| task_queue := []; result_queue := []; running := []; stdout := [] |} /\
  fetch schedule [] self
  = Some match collate_fn (base self) with
         | Some c => (match c (VList []) with
                      | Return collated => subscript1 collated
                      | Raise StopIteration =>
                          Raise (Exception "RuntimeError: coroutine raised StopIteration")
                      | Raise e => Raise e
                      end, self, [Collate (VList []) (c (VList []))])
         | None => (Return (VList []), self, [])
         end.
Proof.
  assert (Hg : gathered self schedule []
               = {| task_queue := []; result_queue := []; running := []; stdout := [] |}).
  { unfold gathered. rewrite create_tasks_takes. simpl.
    rewrite skipn_nil. destruct (seq 0 (thread_pool_size self)); reflexivity. }
  split; [exact Hg|].
  unfold fetch, initiate_fetch_tasks. rewrite Hg. cbn [running result_queue sort_by_index fold_right].
  f_equal. destruct (collate_fn (base self)) as [c|] eqn:Hc.
  - apply (AsyncProperties.collate_result_list_Some self [] Hc).
  - apply (AsyncProperties.collate_result_list_None self [] Hc).
Qed.

Lemma combine_seq_ids A (l : list A) :
  forall w n, map fst (combine (seq w n) l) = seq w (Nat.min n (length l)).
Proof.
  induction l as [|x l IH]; intros w [|n]; simpl; try reflexivity.
  rewrite IH. reflexivity.
Qed.

(** Along any order of completion the workers that are suspended are
    distinct workers of the pool. *)
Lemma gathering_workers ds W st st' :
  gathering ds st st' ->
  NoDup (map fst (running st)) ->
  Forall (fun w => w < W) (map fst (running st)) ->
  NoDup (map fst (running st')) /\ Forall (fun w => w < W) (map fst (running st')).
Proof.
  induction 1 as [st|st k st' Hk Hg IH]; intros Hnd Hall; [auto|].
  destruct (nth_error (running st) k) as [[w i]|] eqn:E;
    [|apply nth_error_None in E; lia].
  destruct (AsyncProperties.remove_nth_perm _ _ E) as [Hp _].
  apply (Permutation_map fst) in Hp. simpl in Hp.
  assert (Hnd1 : NoDup (w :: map fst (remove_nth k (running st))))
    by (apply (Permutation_NoDup (Permutation_sym Hp)), Hnd).
  assert (Hall1 : Forall (fun w => w < W) (w :: map fst (remove_nth k (running st))))
    by (apply (Permutation_Forall (Permutation_sym Hp)), Hall).
  apply IH; unfold worker_resume; rewrite E;
    destruct (getitem ds (Single i)) as [v|[]]; try assumption;
    unfold worker_loop; simpl;
    try (destruct (task_queue st); simpl; rewrite ?map_app; simpl);
    solve [ inversion Hnd1; assumption
          | inversion Hall1; assumption
          | apply (Permutation_NoDup (Permutation_cons_append _ _)), Hnd1
          | apply (Permutation_Forall (Permutation_cons_append _ _)), Hall1 ].
Qed.

(** X16: in every state that an order of completion reaches, the retrievals
    in flight are no more than the workers of the pool, and no worker has
    two. *)
Theorem retrievals_in_flight_are_bounded self batch st :
  gathering (dataset self) (started self batch) st ->
  length (running st) <= thread_pool_size self /\
  NoDup (map fst (running st)).
Proof.
  intros Hg.
  destruct (@gathering_workers (dataset self) (thread_pool_size self) _ _ Hg)
    as [Hnd Hall].
  - rewrite create_tasks_takes. simpl.
    rewrite combine_seq_ids. apply seq_NoDup.
  - rewrite create_tasks_takes. simpl.
    rewrite combine_seq_ids. apply Forall_forall. intros w Hw.
    apply in_seq in Hw. lia.
  - split; [|exact Hnd].
    rewrite <- (length_map fst), <- (length_seq (thread_pool_size self) 0).
    apply NoDup_incl_length; [exact Hnd|].
    intros w Hw. apply in_seq. rewrite Forall_forall in Hall.
    specialize (Hall w Hw). lia.
Qed.

(** The pool depends on the dataset through the retrieval of single indices
    alone. *)
Lemma worker_resume_ext ds1 ds2 k st :
  (forall i, getitem ds1 (Single i) = getitem ds2 (Single i)) ->
  worker_resume ds1 k st = worker_resume ds2 k st.
Proof.
  intros H. unfold worker_resume.
  destruct (nth_error (running st) k) as [[w i]|]; [|reflexivity].
  rewrite (H i). reflexivity.
Qed.

Lemma ready_ext ds1 ds2 st :
  (forall i, getitem ds1 (Single i) = getitem ds2 (Single i)) ->
  ready ds1 st = ready ds2 st.
Proof.
  intros H. unfold ready. apply filter_ext. intros k. unfold resumable.
  destruct (nth_error (running st) k) as [[w i]|]; [rewrite (H i)|]; reflexivity.
Qed.

Lemma gather_ext ds1 ds2 fuel :
  (forall i, getitem ds1 (Single i) = getitem ds2 (Single i)) ->
  forall schedule st, gather ds1 fuel schedule st = gather ds2 fuel schedule st.
Proof.
  intros H. induction fuel as [|fuel IH]; intros schedule st; cbn [gather].
  - rewrite ?(@ready_ext ds1 ds2 st H). destruct (ready ds2 st); reflexivity.
  - rewrite (@ready_ext ds1 ds2 st H). destruct (ready ds2 st); [reflexivity|].
    rewrite (@worker_resume_ext ds1 ds2 _ _ H). apply IH.
Qed.

(** X17: [fetch] looks at the collate function, at the retrieval of single
    indices and at the number of workers, and at nothing else of the
    fetcher: neither [auto_collation], nor [drop_last], nor a bulk retrieval
    of the dataset changes the pool, whether the call returns, the outcome
    or the call of the collate function. *)
Theorem fetch_ignores_the_batching_options self1 self2 schedule batch :
  collate_fn (base self1) = collate_fn (base self2) ->
  (forall i, getitem (dataset self1) (Single i) = getitem (dataset self2) (Single i)) ->
  thread_pool_size self1 = thread_pool_size self2 ->
  gathered self1 schedule batch = gathered self2 schedule batch /\
  option_map (fun r => fst (fst r)) (fetch schedule batch self1)
  = option_map (fun r => fst (fst r)) (fetch schedule batch self2) /\
  option_map snd (fetch schedule batch self1)
  = option_map snd (fetch schedule batch self2).
Proof.
  intros Hc Hg HW.
  assert (Hpool : gathered self1 schedule batch = gathered self2 schedule batch).
  { unfold gathered. rewrite HW. apply gather_ext, Hg. }
  split; [exact Hpool|].
  unfold fetch, initiate_fetch_tasks. rewrite Hpool.
  destruct (running (gathered self2 schedule batch)); [|auto].
  cbn [option_map].
  destruct (@collate_result_list_ext self1 self2
              (sort_by_index (result_queue (gathered self2 schedule batch))) Hc)
    as [-> ->].
  auto.
Qed.

(** X18: with one worker, when every retrieval of the batch returns or
    raises an exception that [except Exception] catches, other than
    [StopIteration], the retrievals are made one after the other in the
    order of the batch, under every schedule: before the sort the result
    queue holds the entries of the indices that succeeded in the order of
    the batch, and the exceptions of the others are printed in that order,
    all by worker 0. *)
Theorem single_worker_keeps_the_order self schedule batch :
  thread_pool_size self = 1 ->
  (forall i, In i batch -> survived (getitem (dataset self) (Single i)) = true) ->
  gathered self schedule batch
  = {| task_queue := [];
       result_queue := successes (dataset self) batch;
       running := [];
       stdout := map (fun e => (0, e)) (failures (dataset self) batch) |}.
Proof.
  intros HW Hall. apply AsyncProperties.single_worker_gathered; assumption.
Qed.

(** X19: on a batch in ascending order whose retrievals all succeed, [fetch]
    hands on the entries in the order of the batch, whatever the number of
    workers and the schedule. *)
Theorem ascending_batches_keep_their_order self schedule batch s :
  1 <= thread_pool_size self ->
  Sorted Z.le batch ->
  (forall i, In i batch -> getitem (dataset self) (Single i) = Return (s i)) ->
  sort_by_index (result_queue (gathered self schedule batch))
  = map (fun i => (i, s i)) batch /\
  fetch schedule batch self
  = Some (collate_result_list (map (fun i => (i, s i)) batch) self).
Proof.
  intros HW Hsorted Hs.
  destruct (AsyncProperties.successes_ok (dataset self) s batch Hs) as (Hsucc & _ & Hall).
  destruct (AsyncProperties.gathered_spec self schedule batch HW Hall) as (Hr & _ & Hp & _).
  assert (Hsort : sort_by_index (result_queue (gathered self schedule batch))
                  = map (fun i => (i, s i)) batch).
  { rewrite (AsyncProperties.sort_by_index_permutation Hp).
    - rewrite Hsucc.
      apply AsyncProperties.sort_by_index_sorted, AsyncProperties.sorted_pairs, Hsorted.
    - intros x y Hx Hy.
      apply (AsyncProperties.successes_functional (dataset self) batch);
        apply (Permutation_in _ Hp); assumption. }
  split; [exact Hsort|].
  rewrite (AsyncProperties.fetch_returns self schedule batch Hr), Hsort. reflexivity.
Qed.

(** Each retrieval of a batch without an exception outside [Exception] is
    one after which the worker goes round its loop, or one of them ends in
    a [StopIteration]. *)
Lemma survived_or_stuck ds (batch : list Z) :
  (forall i what, In i batch -> getitem ds (Single i) <> Raise (BaseException what)) ->
  (forall i, In i batch -> survived (getitem ds (Single i)) = true) \/
  (exists i, In i batch /\ getitem ds (Single i) = Raise StopIteration).
Proof.
  induction batch as [|j batch IH]; intros Hb; [left; intros i []|].
  destruct IH as [IH|(i & Hi & Hstop)].
  - intros i what Hi. apply Hb. right. exact Hi.
  - destruct (getitem ds (Single j)) as [v|[| | |what|what]] eqn:Ej.
    2: right; exists j; split; [left; reflexivity|exact Ej].
    5: exfalso; apply (Hb j what (or_introl eq_refl)); exact Ej.
    all: left; intros i [<-|Hi]; [rewrite Ej; reflexivity|apply IH, Hi].
  - right. exists i. split; [right; exact Hi|exact Hstop].
Qed.

(** X21: with a worker in the pool and no retrieval of the batch raising
    outside [Exception], [fetch] returns under a schedule just when no
    retrieval of the batch raises [StopIteration]: the worker that meets
    one is never resumed, and [gather] waits for it.  When [fetch] returns
    it has gone on with the entries of the retrievals that returned, sorted
    by index. *)
Theorem fetch_returns_unless_a_worker_is_stuck self schedule batch :
  1 <= thread_pool_size self ->
  (forall i what, In i batch -> getitem (dataset self) (Single i) <> Raise (BaseException what)) ->
  (fetch schedule batch self = None
   <-> exists i, In i batch /\ getitem (dataset self) (Single i) = Raise StopIteration) /\
  (forall r, fetch schedule batch self = Some r ->
             r = collate_result_list (sort_by_index (successes (dataset self) batch)) self).
Proof.
  intros HW Hb.
  destruct (survived_or_stuck (dataset self) batch Hb) as [Hall|(i & Hi & Hstop)].
  - rewrite (AsyncProperties.fetch_sorted self schedule batch HW Hall). split.
    + split; [discriminate|]. intros (i & Hi & Hstop).
      specialize (Hall i Hi). rewrite Hstop in Hall. discriminate.
    + intros r H. injection H as <-. reflexivity.
  - rewrite (@AsyncProperties.stuck_worker_blocks self schedule batch i HW Hb Hi Hstop). split.
    + split; [eauto|reflexivity].
    + intros r H. discriminate.
Qed.


(** X23: an exception of the collate function is the outcome of the call of
    [fetch] that made it, a [StopIteration] as the [RuntimeError] of the
    coroutine and any other as it was raised. *)
Theorem collator_errors_leave_the_coroutine self schedule batch r self' log data e :
  fetch schedule batch self = Some (r, self', log) ->
  In (Collate data (Raise e)) log ->
  r = Raise match e with
            | StopIteration => Exception "RuntimeError: coroutine raised StopIteration"
            | _ => e
            end.
Proof.
  intros H Hin. apply AsyncProperties.fetch_returned in H. destruct H as [_ H].
  destruct (collate_fn (base self)) as [c|] eqn:Hc.
  - rewrite (AsyncProperties.collate_result_list_Some self _ Hc) in H.
    injection H as -> _ ->. destruct Hin as [Hin|[]].
    injection Hin as _ Hin. rewrite Hin. destruct e; reflexivity.
  - rewrite (AsyncProperties.collate_result_list_None self _ Hc) in H.
    injection H as _ _ ->. destruct Hin.
Qed.

(** X20: [__init__] builds a fetcher only with a worker in its pool, so a
    fetcher that it has built brings to its end every call whose
    retrievals return or raise exceptions that [except Exception] catches,
    other than [StopIteration]: under every schedule the tasks are gathered
    with no worker and no index left, and [fetch] returns and goes on with
    the entries of the retrievals that returned, sorted by index. *)
Theorem init_then_fetch b ds n self schedule batch :
  init b ds n = Return self ->
  (forall i, In i batch -> survived (getitem ds (Single i)) = true) ->
  1 <= n /\
  running (gathered self schedule batch) = [] /\
  task_queue (gathered self schedule batch) = [] /\
  fetch schedule batch self
  = Some (collate_result_list (sort_by_index (successes ds batch)) self).
Proof.
  intros H Hall.
  assert (HW : 1 <= thread_pool_size self) by (apply (AsyncProperties.init_has_workers _ _ _ H)).
  assert (Hself : self = {| base := b; dataset := ds; thread_pool_size := n |}).
  { destruct n; simpl in H; [discriminate|]. injection H as <-. reflexivity. }
  assert (Hall' : forall i, In i batch -> survived (getitem (dataset self) (Single i)) = true).
  { rewrite Hself. exact Hall. }
  destruct (AsyncProperties.gathered_spec self schedule batch HW Hall') as (Hr & Hq & _).
  split; [rewrite Hself in HW; exact HW|]. split; [exact Hr|]. split; [exact Hq|].
  rewrite (AsyncProperties.fetch_sorted self schedule batch HW Hall'), Hself. reflexivity.
Qed.

(** Positions [5, 1, 3] with the retrieval of 3 failing, two workers. *)
Lemma every_index_is_answered_once_witness :
  let ds := {| getitem := fun k => match k with
                                   | Single 3 => Raise (Exception "unreadable")
                                   | Single i => Return (VInt (10 * i))
                                   | Batch _ => Raise TypeError
                                   end;
               getitems := Absent |} in
  let self := {| base := {| auto_collation := true; collate_fn := None; drop_last := false |};
                 dataset := ds; thread_pool_size := 2 |} in
  let st := gathered self [1; 0] [5; 1; 3]%Z in
  running st = [] /\ task_queue st = [] /\
  length (result_queue st) + length (stdout st) = 3.
Proof.
  intros ds self st.
  destruct (@every_index_is_answered_once self [1; 0] [5; 1; 3]%Z) as (Hr & Hq & Hl & _).
  - simpl. lia.
  - intros i [<-|[<-|[<-|[]]]]; reflexivity.
  - auto.
Defined.

(** One worker and three, under two schedules, the retrieval of 3
    failing. *)
Lemma fetch_is_independent_of_the_schedule_witness :
  let ds := {| getitem := fun k => match k with
                                   | Single 3 => Raise (Exception "unreadable")
                                   | Single i => Return (VInt (10 * i))
                                   | Batch _ => Raise TypeError
                                   end;
               getitems := Absent |} in
  let b := {| auto_collation := true; collate_fn := None; drop_last := false |} in
  exists out log,
    fetch [] [5; 1; 3]%Z {| base := b; dataset := ds; thread_pool_size := 1 |}
    = Some (out, {| base := b; dataset := ds; thread_pool_size := 1 |}, log) /\
    fetch [2; 0; 1] [5; 1; 3]%Z {| base := b; dataset := ds; thread_pool_size := 3 |}
    = Some (out, {| base := b; dataset := ds; thread_pool_size := 3 |}, log).
Proof.
  intros ds b.
  refine (@fetch_is_independent_of_the_schedule b ds 1 3 [] [2; 0; 1] [5; 1; 3]%Z _ _ _).
  - lia.
  - lia.
  - intros i [<-|[<-|[<-|[]]]]; reflexivity.
Defined.

Lemma result_list_is_sorted_by_index_witness :
  let ds := {| getitem := fun k => match k with
                                   | Single i => Return (VInt (10 * i))
                                   | Batch _ => Raise TypeError
                                   end;
               getitems := Absent |} in
  let self := {| base := {| auto_collation := true; collate_fn := None; drop_last := false |};
                 dataset := ds; thread_pool_size := 2 |} in
  Sorted (fun a b => (fst a <= fst b)%Z)
         (sort_by_index (result_queue (gathered self [1; 0; 0] [5; 1; 3; 1]%Z))) /\
  fetch [1; 0; 0] [5; 1; 3; 1]%Z self
  = Some (Return (VList [VTuple [VInt 1; VInt 10]; VTuple [VInt 1; VInt 10];
                         VTuple [VInt 3; VInt 30]; VTuple [VInt 5; VInt 50]]), self, []).
Proof.
  intros ds self.
  destruct (@result_list_is_sorted_by_index self [1; 0; 0] [5; 1; 3; 1]%Z)
    as (Hsorted & _ & Hfetch).
  split; [exact Hsorted|].
  refine (proj2 (Hfetch _ _)).
  - simpl. lia.
  - intros i [<-|[<-|[<-|[<-|[]]]]]; reflexivity.
Defined.

(** Two workers and four indices: after the first completion two retrievals
    are in flight. *)
Lemma retrievals_in_flight_are_bounded_witness :
  let ds := {| getitem := fun k => match k with
                                   | Single i => Return (VInt (10 * i))
                                   | Batch _ => Raise TypeError
                                   end;
               getitems := Absent |} in
  let self := {| base := {| auto_collation := true; collate_fn := None; drop_last := false |};
                 dataset := ds; thread_pool_size := 2 |} in
  let st := worker_resume ds 1 (started self [5; 1; 3; 7]%Z) in
  length (running st) <= 2 /\ NoDup (map fst (running st)).
Proof.
  intros ds self st.
  refine (@retrievals_in_flight_are_bounded self [5; 1; 3; 7]%Z st _).
  apply (@gathering_step ds (started self [5; 1; 3; 7]%Z) 1 st).
  - simpl. lia.
  - apply gathering_refl.
Defined.

(** Two fetchers that differ in [auto_collation], in [drop_last] and in the
    bulk retrieval of their dataset. *)
Lemma fetch_ignores_the_batching_options_witness :
  let sample := fun k => match k with
                         | Single i => Return (VInt (10 * i))
                         | Batch _ => Raise TypeError
                         end in
  let self1 := {| base := {| auto_collation := true; collate_fn := None;
                             drop_last := false |};
                  dataset := {| getitem := sample; getitems := Absent |};
                  thread_pool_size := 2 |} in
  let self2 := {| base := {| auto_collation := false; collate_fn := None;
                             drop_last := true |};
                  dataset := {| getitem := sample;
                                getitems := Bulk (fun _ => Return (VList [])) |};
                  thread_pool_size := 2 |} in
  option_map (fun r => fst (fst r)) (fetch [1; 0] [5; 1; 3]%Z self1)
  = option_map (fun r => fst (fst r)) (fetch [1; 0] [5; 1; 3]%Z self2).
Proof.
  intros sample self1 self2.
  refine (proj1 (proj2 (@fetch_ignores_the_batching_options self1 self2 [1; 0]
                          [5; 1; 3]%Z _ _ _))).
  - reflexivity.
  - intros i. reflexivity.
  - reflexivity.
Defined.

(** One worker, positions [5, 3, 1], the retrieval of 3 failing. *)
Lemma single_worker_keeps_the_order_witness :
  let ds := {| getitem := fun k => match k with
                                   | Single 3 => Raise (Exception "unreadable")
                                   | Single i => Return (VInt (10 * i))
                                   | Batch _ => Raise TypeError
                                   end;
               getitems := Absent |} in
  let self := {| base := {| auto_collation := true; collate_fn := None; drop_last := false |};
                 dataset := ds; thread_pool_size := 1 |} in
  gathered self [] [5; 3; 1]%Z
  = {| task_queue := [];
       result_queue := [(5, VInt 50); (1, VInt 10)]%Z;
       running := [];
       stdout := [(0, Exception "unreadable")] |}.
Proof.
  intros ds self.
  refine (@single_worker_keeps_the_order self [] [5; 3; 1]%Z _ _).
  - reflexivity.
  - intros i [<-|[<-|[<-|[]]]]; reflexivity.
Defined.

(** Positions [1, 3, 5], three workers completing in the order 5, 3, 1. *)
Lemma ascending_batches_keep_their_order_witness :
  let ds := {| getitem := fun k => match k with
                                   | Single i => Return (VInt (10 * i))
                                   | Batch _ => Raise TypeError
                                   end;
               getitems := Absent |} in
  let self := {| base := {| auto_collation := true; collate_fn := None; drop_last := false |};
                 dataset := ds; thread_pool_size := 3 |} in
  result_queue (gathered self [2; 1; 0] [1; 3; 5]%Z)
  = [(5, VInt 50); (3, VInt 30); (1, VInt 10)]%Z /\
  sort_by_index (result_queue (gathered self [2; 1; 0] [1; 3; 5]%Z))
  = [(1, VInt 10); (3, VInt 30); (5, VInt 50)]%Z.
Proof.
  intros ds self. split; [reflexivity|].
  refine (proj1 (@ascending_batches_keep_their_order self [2; 1; 0] [1; 3; 5]%Z
                   (fun i => VInt (10 * i)) _ _ _)).
  - simpl. lia.
  - repeat constructor; discriminate.
  - intros i _. reflexivity.
Defined.

(** Positions [5, 1, 3] with the retrieval of 3 raising [StopIteration],
    two workers: the call does not return. *)
Lemma fetch_returns_unless_a_worker_is_stuck_witness :
  let ds := {| getitem := fun k => match k with
                                   | Single 3 => Raise StopIteration
                                   | Single i => Return (VInt (10 * i))
                                   | Batch _ => Raise TypeError
                                   end;
               getitems := Absent |} in
  let self := {| base := {| auto_collation := true; collate_fn := None; drop_last := false |};
                 dataset := ds; thread_pool_size := 2 |} in
  fetch [1; 0] [5; 1; 3]%Z self = None.
Proof.
  intros ds self.
  refine (proj2 (proj1 (@fetch_returns_unless_a_worker_is_stuck self [1; 0] [5; 1; 3]%Z
                          _ _)) _).
  - simpl. lia.
  - intros i what [<-|[<-|[<-|[]]]]; discriminate.
  - exists 3%Z. split; [simpl; auto|reflexivity].
Defined.


(** A collate function that raises [StopIteration]. *)
Lemma collator_errors_leave_the_coroutine_witness :
  let ds := {| getitem := fun k => match k with
                                   | Single i => Return (VInt (10 * i))
                                   | Batch _ => Raise TypeError
                                   end;
               getitems := Absent |} in
  let self := {| base := {| auto_collation := true;
                            collate_fn := Some (fun _ => Raise StopIteration);
                            drop_last := false |};
                 dataset := ds; thread_pool_size := 1 |} in
  fst (fst (collate_result_list [(1, VInt 10)]%Z self))
  = Raise (Exception "RuntimeError: coroutine raised StopIteration").
Proof.
  intros ds self.
  refine (@collator_errors_leave_the_coroutine self [] [1]%Z
            (fst (fst (collate_result_list [(1, VInt 10)]%Z self))) self
            [Collate (VList [VTuple [VInt 1; VInt 10]]) (Raise StopIteration)]
            (VList [VTuple [VInt 1; VInt 10]]) StopIteration _ _).
  - reflexivity.
  - left. reflexivity.
Defined.

Lemma init_then_fetch_witness :
  let ds := {| getitem := fun k => match k with
                                   | Single i => Return (VInt (10 * i))
                                   | Batch _ => Raise TypeError
                                   end;
               getitems := Absent |} in
  let b := {| auto_collation := true; collate_fn := None; drop_last := false |} in
  let self := {| base := b; dataset := ds; thread_pool_size := 2 |} in
  fetch [1; 0] [5; 1]%Z self
  = Some (collate_result_list (sort_by_index (successes ds [5; 1]%Z)) self).
Proof.
  intros ds b self.
  refine (proj2 (proj2 (proj2
            (@init_then_fetch b ds 2 self [1; 0] [5; 1]%Z _ _)))).
  - reflexivity.
  - intros i [<-|[<-|[]]]; reflexivity.
Defined.

End AsyncCoverage.
